(** * VideoPlayerApp: the ASS subtitle engine of [src/App.js]

    A shallow embedding of the subtitle parser ([class ASSParser]) and of the
    pure helpers of the renderer ([SubtitleRenderer]), followed by the
    properties the specification states about them.

    JavaScript data is modelled as the program has it:
    - a string is a [string], each [ascii] standing for one code unit below 256;
    - a Number is an IEEE 754 binary64 value, Rocq's primitive [float], so that
      [+], [-], [*], [<=] are the operations the JavaScript engine performs;
    - an array is a [list]; an out-of-range index reads [undefined] ([None]);
    - an object used as a map from names is a [gmap string];
    - the parser object is a record threaded through the parsing methods. *)

From stdpp Require Import gmap strings.
From Stdlib Require Import ZArith Lia List String Ascii Bool Floats Sorted.
From Stdlib Require Import DecimalString Zpower Permutation.
Import ListNotations.

Local Open Scope list_scope.
Local Open Scope string_scope.
Local Open Scope nat_scope.

#[local] Arguments String.append !_ _ / : simpl nomatch.

(** ** The JavaScript built-ins the program calls *)
Module JS.

(** *** Strings *)

(** [WhiteSpace] and [LineTerminator] code units below 256: TAB, LF, VT, FF, CR,
    SP and NBSP.  [String.prototype.trim] and the numeric parsers skip them. *)
Definition isWhiteSpace (c : ascii) : bool :=
  let n := nat_of_ascii c in
  ((9 <=? n) && (n <=? 13)) || (n =? 32) || (n =? 160).

Fixpoint trimStart (s : string) : string :=
  match s with
  | String c r => if isWhiteSpace c then trimStart r else s
  | EmptyString => EmptyString
  end.

(** Drops trailing white space: a white-space unit is kept only when something
    that survives follows it. *)
Fixpoint trimEnd (s : string) : string :=
  match s with
  | EmptyString => EmptyString
  | String c r =>
      match trimEnd r with
      | EmptyString => if isWhiteSpace c then EmptyString else String c EmptyString
      | r' => String c r'
      end
  end.

(** [s.trim()] *)
Definition trim (s : string) : string := trimEnd (trimStart s).

(** [s.startsWith(p)] *)
Fixpoint startsWith (s p : string) {struct p} : bool :=
  match p, s with
  | EmptyString, _ => true
  | String _ _, EmptyString => false
  | String a p', String b s' => Ascii.eqb a b && startsWith s' p'
  end.

(** The string without its first [n] code units. *)
Fixpoint dropUnits (n : nat) (s : string) : string :=
  match n, s with
  | O, _ => s
  | S _, EmptyString => EmptyString
  | S n', String _ r => dropUnits n' r
  end.

(** [s.endsWith(p)] *)
Definition endsWith (s p : string) : bool :=
  (String.length p <=? String.length s) &&
  String.eqb (dropUnits (String.length s - String.length p) s) p.

(** A relative index of [slice]: negative counts from the end; the result is
    clamped to [0 .. len]. *)
Definition relIndex (len : nat) (i : Z) : nat :=
  if (i <? 0)%Z then Z.to_nat (Z.max 0 (Z.of_nat len + i))
  else Nat.min (Z.to_nat i) len.

(** [s.slice(start, end)] *)
Definition slice (s : string) (start stop : Z) : string :=
  let len := String.length s in
  let from := relIndex len start in
  let to := relIndex len stop in
  substring from (to - from) s.

(** [s.substr(start, length)] for a start that is not negative. *)
Definition substr (s : string) (start len : nat) : string :=
  substring start len s.

(** [s.split(c)] for a separator of one code unit: the pieces between the
    separators, at least one piece. *)
Fixpoint split (c : ascii) (s : string) : list string :=
  match s with
  | EmptyString => [EmptyString]
  | String a r =>
      if Ascii.eqb a c then EmptyString :: split c r
      else match split c r with
           | p :: ps => String a p :: ps
           | [] => [String a EmptyString]
           end
  end.

(** [parts.join(sep)] *)
Fixpoint join (sep : string) (parts : list string) : string :=
  match parts with
  | [] => EmptyString
  | [p] => p
  | p :: ps => p ++ sep ++ join sep ps
  end.

(** [s.replace(pat, '')] for a string pattern: the first occurrence of [pat]
    is removed, no occurrence leaves [s] as it is. *)
Fixpoint removeFirst (pat s : string) : string :=
  if startsWith s pat then dropUnits (String.length pat) s
  else match s with
       | EmptyString => EmptyString
       | String c r => String c (removeFirst pat r)
       end.

(** [s.replace(/ab/g, rep)] for a pattern that is a literal text of two code
    units: every occurrence, scanning from the left, without overlap. *)
Fixpoint replaceAll (a b : ascii) (rep s : string) : string :=
  match s with
  | String x (String y r as t) =>
      if Ascii.eqb x a && Ascii.eqb y b then rep ++ replaceAll a b rep r
      else String x (replaceAll a b rep t)
  | _ => s
  end.

(** One code unit of [s.toLowerCase()]: the Latin capital letters below 256. *)
Definition lowerUnit (c : ascii) : ascii :=
  let n := nat_of_ascii c in
  if ((65 <=? n) && (n <=? 90)) || ((192 <=? n) && (n <=? 222) && negb (n =? 215))
  then ascii_of_nat (n + 32) else c.

Fixpoint toLowerCase (s : string) : string :=
  match s with
  | EmptyString => EmptyString
  | String c r => String (lowerUnit c) (toLowerCase r)
  end.

(** [arr[i]]: [None] is [undefined]. *)
Definition at_ (parts : list string) (i : nat) : option string := nth_error parts i.

(** [ToString] of a value that is a string or [undefined]. *)
Definition ToString (v : option string) : string :=
  match v with Some s => s | None => "undefined" end.

(** *** Numbers *)

(** The Number value of a real [m * 2^e] with [m] an integer: the nearest
    binary64 value, ties to even, an infinity past the largest one. *)
Definition ofBinary (m e : Z) : spec_float :=
  binary_normalize prec emax m e false.

(** The Number value for the integer [z]. *)
Definition ofInteger (z : Z) : float := SF2Prim (ofBinary z 0).

(** The nearest binary64 value of [m * 10^e], for a decimal literal of [n]
    digits whose digits, read as an integer, are [m].  Past [10^310] the value
    is above every finite double, below [10^-331] it is under half of the
    least one: the power of ten is only computed between the two. *)
Definition ofDecimal (m : N) (n : nat) (e : Z) : spec_float :=
  match m with
  | N0 => S754_zero false
  | Npos p =>
      if (310 <? e)%Z then S754_infinity false
      else if (e + Z.of_nat n <? -330)%Z then S754_zero false
      else if (0 <=? e)%Z then ofBinary (Zpos p * 10 ^ e) 0
      else SFdiv prec emax (S754_finite false p 0)
                           (S754_finite false (Z.to_pos (10 ^ (- e))) 0)
  end.

(** The value of a code unit as a digit: [0-9], then [a-z] or [A-Z] for 10 to 35. *)
Definition digitValue (c : ascii) : option N :=
  let n := N_of_ascii c in
  if (48 <=? n)%N && (n <=? 57)%N then Some (n - 48)%N
  else if (97 <=? n)%N && (n <=? 122)%N then Some (n - 87)%N
  else if (65 <=? n)%N && (n <=? 90)%N then Some (n - 55)%N
  else None.

(** The longest prefix of [s] made of digits of radix [R]: its value on top of
    [acc], the number of digits read on top of [count], and what follows. *)
Fixpoint readDigits (R : N) (s : string) (acc : N) (count : nat) : N * nat * string :=
  match s with
  | EmptyString => (acc, count, s)
  | String c r =>
      match digitValue c with
      | Some d => if (d <? R)%N then readDigits R r (acc * R + d)%N (S count)
                  else (acc, count, s)
      | None => (acc, count, s)
      end
  end.

(** A leading [+] or [-]: whether it was a minus, and the rest. *)
Definition readSign (s : string) : bool * string :=
  match s with
  | String "-" r => (true, r)
  | String "+" r => (false, r)
  | _ => (false, s)
  end.

Definition withSign (neg : bool) (x : float) : float :=
  if neg then (- x)%float else x.

(** [parseInt(string, radix)]; [radix = 0] is a radix left out.  White space is
    skipped, a sign read, [0x] or [0X] stripped when the radix is 16 or left
    out, then the longest run of digits is the value; no digit gives [NaN]. *)
Definition parseInt (input : string) (radix : N) : float :=
  let '(neg, s) := readSign (trimStart input) in
  if negb (radix =? 0)%N && ((radix <? 2)%N || (36 <? radix)%N) then nan
  else
    let stripPrefix := (radix =? 0)%N || (radix =? 16)%N in
    let R0 := if (radix =? 0)%N then 10%N else radix in
    let '(R, s) := if stripPrefix && (startsWith s "0x" || startsWith s "0X")
                   then (16%N, dropUnits 2 s) else (R0, s) in
    let '(mathInt, count, _) := readDigits R s 0 0 in
    if (count =? 0)%nat then nan
    else withSign neg (ofInteger (Z.of_N mathInt)).

(** The [ExponentPart] of a decimal literal at the head of [s]: [e] or [E], an
    optional sign and at least one digit; anything else is no exponent. *)
Definition readExponent (s : string) : Z :=
  match s with
  | String c r =>
      if Ascii.eqb c "e" || Ascii.eqb c "E" then
        let '(neg, r') := readSign r in
        let '(v, count, _) := readDigits 10 r' 0 0 in
        if (count =? 0)%nat then 0%Z
        else if neg then (- Z.of_N v)%Z else Z.of_N v
      else 0%Z
  | EmptyString => 0%Z
  end.

(** [parseFloat(string)]: white space is skipped, then the longest prefix that
    is a [StrDecimalLiteral] is the value: a sign, then [Infinity] or digits
    with an optional fraction and exponent; no such prefix gives [NaN]. *)
Definition parseFloat (input : string) : float :=
  let '(neg, s) := readSign (trimStart input) in
  if startsWith s "Infinity" then withSign neg infinity
  else
    let '(ip, ni, s) := readDigits 10 s 0 0 in
    let '(m, nf, s) := match s with
                       | String "." r => readDigits 10 r ip 0
                       | _ => (ip, 0, s)
                       end in
    if (ni + nf =? 0)%nat then nan
    else withSign neg
           (SF2Prim (ofDecimal m (ni + nf) (readExponent s - Z.of_nat nf))).

(** [x || d] on Numbers: [NaN], [+0] and [-0] are falsy. *)
Definition orElse (x d : float) : float :=
  if is_nan x || is_zero x then d else x.

(** [Number::toString] as a template literal applies it, for [NaN], the
    infinities and the integers, which print as their decimal digits below
    [2^53] (a zero of either sign prints [0]).  The Numbers [parseColor] prints
    are results of [parseInt] on at most two hexadecimal digits: they are
    [NaN] or integers from -15 to 255.  Other values would need the shortest
    digits that read back as the value, which no call here does: their integer
    part is printed. *)
Definition decimal (n : N) : string := NilZero.string_of_uint (N.to_uint n).

Definition integerPart (x : spec_float) : N :=
  match x with
  | S754_finite _ m e => Z.to_N (Z.shiftl (Zpos m) e)
  | _ => 0%N
  end.

Definition numberToString (x : float) : string :=
  match Prim2SF x with
  | S754_nan => "NaN"
  | S754_infinity neg => if neg then "-Infinity" else "Infinity"
  | S754_zero _ => "0"
  | S754_finite neg _ _ as f =>
      (if neg then "-" else "") ++ decimal (integerPart f)
  end.

(** [a === b] on strings. *)
Definition strictEq (a b : string) : bool := String.eqb a b.

(** *** Array.prototype.sort *)

(** [arr.sort(comparefn)] for a comparator that returns a Number.  The sort
    places [x] before [y] when [comparefn(x, y) < 0]; a [NaN] result counts as
    [+0].  The sort is stable, so for a consistent comparator every algorithm
    gives the list that insertion from the left gives.  For a comparator
    that is not consistent (here: a start time that is [NaN]) the language
    leaves the order to the engine: the list below is then a reordering of
    the input, as the engine's is, but need not be in the engine's order, and
    nothing is stated about the order in that case. *)
Section Sort.
Context {A : Type} (comparefn : A -> A -> float).

Definition sortsBefore (x y : A) : bool := (comparefn x y <? 0)%float.

Fixpoint insertBy (x : A) (l : list A) : list A :=
  match l with
  | [] => [x]
  | y :: r => if sortsBefore x y then x :: l else y :: insertBy x r
  end.

Definition sort (l : list A) : list A :=
  fold_left (fun acc x => insertBy x acc) l [].
End Sort.

(** *** Math and truthiness *)

(** [Math.min(x, y)] and [Math.max(x, y)]: [NaN] when an argument is, and [-0]
    counts as below [+0]. *)
Definition mathMin (x y : float) : float :=
  if is_nan x || is_nan y then nan
  else if (x <? y)%float then x
  else if (y <? x)%float then y
  else if get_sign x then x else y.

Definition mathMax (x y : float) : float :=
  if is_nan x || is_nan y then nan
  else if (x <? y)%float then y
  else if (y <? x)%float then x
  else if get_sign x then y else x.

(** Whether a Number is truthy. *)
Definition truthyNumber (x : float) : bool := negb (is_nan x || is_zero x).

(** Whether a property that holds a Number or is [undefined] is truthy. *)
Definition truthy (v : option float) : bool :=
  match v with
  | Some x => truthyNumber x
  | None => false
  end.

(** [v || d] for a property that holds a Number or is [undefined]. *)
Definition numberOr (v : option float) (d : float) : float :=
  match v with
  | Some x => orElse x d
  | None => d
  end.


End JS.

(** ** class ASSParser *)

(** A style object, as [parseStyle] builds it. *)
Module Style.
Record t := mk {
  name : string;
  fontName : string;
  fontSize : float;
  primaryColour : string;
  secondaryColour : string;
  outlineColour : string;
  backColour : string;
  bold : bool;
  italic : bool;
  underline : bool;
  strikeOut : bool;
  scaleX : float;
  scaleY : float;
  spacing : float;
  angle : float;
  borderStyle : float;
  outline : float;
  shadow : float;
  alignment : float;
  marginL : float;
  marginR : float;
  marginV : float
}.
End Style.

(** An event object, as [parseDialogue] builds it ([end_] is its [end]). *)
Module Event.
Record t := mk {
  layer : float;
  start : float;
  end_ : float;
  style : string;
  name : string;
  marginL : float;
  marginR : float;
  marginV : float;
  effect : string;
  text : string
}.
End Event.

Module ASSParser.
Import JS.

(** The fields of the object: [this.styles], an object used as a map from style
    name to style, and [this.events]. *)
Record t := mk {
  styles : gmap string Style.t;
  events : list Event.t
}.

(** The fields as the constructor sets them, before [parseASS] runs. *)
Definition new : t := {| styles := ∅; events := [] |}.

(** [parts[i]] at an index that the length test before it makes present. *)
Definition item (parts : list string) (i : nat) : string := nth i parts "".

(** [parseInt(parts[i])] and [parseFloat(parts[i])]: an absent field is
    [undefined], which is read as the text [undefined]. *)
Definition intField (parts : list string) (i : nat) : float :=
  parseInt (ToString (at_ parts i)) 0.

Definition floatField (parts : list string) (i : nat) : float :=
  parseFloat (ToString (at_ parts i)).

(** [parseTime(timeStr)] (lines 96-106) *)
Definition parseTime (timeStr : string) : float :=
  let parts := split ":" timeStr in
  if negb (List.length parts =? 3) then 0%float
  else
    let hours := orElse (intField parts 0) 0 in
    let minutes := orElse (intField parts 1) 0 in
    let seconds := orElse (floatField parts 2) 0 in
    ((hours * 3600 + minutes * 60 + seconds) * 1000)%float.

(** [parseColor(colorStr)] (lines 108-119) *)
Definition parseColor (colorStr : string) : string :=
  if startsWith colorStr "&H" && endsWith colorStr "&" then
    let hex := slice colorStr 2 (-1) in
    let b := parseInt (substr hex 0 2) 16 in
    let g := parseInt (substr hex 2 2) 16 in
    let r := parseInt (substr hex 4 2) 16 in
    "rgb(" ++ numberToString r ++ ", " ++ numberToString g ++ ", "
           ++ numberToString b ++ ")"
  else "#ffffff".

(** The fields of a style line: [line.replace('Style:', '').split(',')]. *)
Definition styleParts (line : string) : list string :=
  split "," (removeFirst "Style:" line).

(** The object literal of [parseStyle] (lines 49-72). *)
Definition styleOfParts (parts : list string) : Style.t :=
  {| Style.name := trim (item parts 0);
     Style.fontName := trim (item parts 1);
     Style.fontSize := orElse (intField parts 2) 16;
     Style.primaryColour := parseColor (item parts 3);
     Style.secondaryColour := parseColor (item parts 4);
     Style.outlineColour := parseColor (item parts 5);
     Style.backColour := parseColor (item parts 6);
     Style.bold := strictEq (item parts 7) "-1";
     Style.italic := strictEq (item parts 8) "-1";
     Style.underline := strictEq (item parts 9) "-1";
     Style.strikeOut := strictEq (item parts 10) "-1";
     Style.scaleX := orElse (floatField parts 11) 100;
     Style.scaleY := orElse (floatField parts 12) 100;
     Style.spacing := orElse (floatField parts 13) 0;
     Style.angle := orElse (floatField parts 14) 0;
     Style.borderStyle := orElse (intField parts 15) 1;
     Style.outline := orElse (floatField parts 16) 0;
     Style.shadow := orElse (floatField parts 17) 0;
     Style.alignment := orElse (intField parts 18) 2;
     Style.marginL := orElse (intField parts 19) 0;
     Style.marginR := orElse (intField parts 20) 0;
     Style.marginV := orElse (intField parts 21) 0 |}.

(** The style a line yields: none when it has fewer than 16 fields. *)
Definition styleOfLine (line : string) : option Style.t :=
  let parts := styleParts line in
  if 16 <=? List.length parts then Some (styleOfParts parts) else None.

(** [parseStyle(line)] (lines 46-75) *)
Definition parseStyle (line : string) (this : t) : t :=
  match styleOfLine line with
  | Some style =>
      {| styles := <[Style.name style := style]> (styles this);
         events := events this |}
  | None => this
  end.

(** The fields of a dialogue line: [line.replace('Dialogue:', '').split(',')]. *)
Definition dialogueParts (line : string) : list string :=
  split "," (removeFirst "Dialogue:" line).

(** The object literal of [parseDialogue] (lines 80-91). *)
Definition eventOfParts (parts : list string) : Event.t :=
  {| Event.layer := orElse (intField parts 0) 0;
     Event.start := parseTime (trim (item parts 1));
     Event.end_ := parseTime (trim (item parts 2));
     Event.style := trim (item parts 3);
     Event.name := trim (item parts 4);
     Event.marginL := orElse (intField parts 5) 0;
     Event.marginR := orElse (intField parts 6) 0;
     Event.marginV := orElse (intField parts 7) 0;
     Event.effect := trim (item parts 8);
     Event.text := trim (join "," (skipn 9 parts)) |}.

(** The event a line yields: none when it has fewer than 10 fields. *)
Definition eventOfLine (line : string) : option Event.t :=
  let parts := dialogueParts line in
  if 10 <=? List.length parts then Some (eventOfParts parts) else None.

(** [parseDialogue(line)] (lines 77-94); [push] appends. *)
Definition parseDialogue (line : string) (this : t) : t :=
  match eventOfLine line with
  | Some event => {| styles := styles this; events := events this ++ [event] |}
  | None => this
  end.

(** [currentSection === name]; [currentSection] starts as [null]. *)
Definition sectionIs (currentSection : option string) (name : string) : bool :=
  match currentSection with
  | Some s => strictEq s name
  | None => false
  end.

Definition LF : ascii := ascii_of_nat 10.

(** One turn of the loop of [parseASS] (lines 27-40) on the section and the
    object. *)
Definition parseLine (st : option string * t) (line : string) : option string * t :=
  let '(currentSection, this) := st in
  let line := trim line in
  if startsWith line "[" && endsWith line "]" then
    (Some (toLowerCase (slice line 1 (-1))), this)
  else if sectionIs currentSection "v4+ styles" && startsWith line "Style:" then
    (currentSection, parseStyle line this)
  else if sectionIs currentSection "events" && startsWith line "Dialogue:" then
    (currentSection, parseDialogue line this)
  else st.

(** The comparator of line 43: [(a, b) => a.start - b.start]. *)
Definition byStart (a b : Event.t) : float := (Event.start a - Event.start b)%float.

(** [parseASS()] (lines 23-44) on the content the constructor stored. *)
Definition parseASS (assContent : string) : t :=
  let lines := split LF assContent in
  let '(_, this) := fold_left parseLine lines (None, new) in
  {| styles := styles this; events := sort byStart (events this) |}.

(** [getActiveSubtitles(currentTime)] (lines 121-125);
    [currentTime >= event.start] is [event.start <= currentTime]. *)
Definition getActiveSubtitles (this : t) (currentTime : float) : list Event.t :=
  List.filter (fun event =>
            (Event.start event <=? currentTime)%float &&
            (currentTime <=? Event.end_ event)%float)
         (events this).

End ASSParser.

(** ** SubtitleRenderer *)
Module SubtitleRenderer.
Import JS.

(** The object [getPositionStyle] returns. *)
Record PositionStyle := mkPositionStyle {
  textAlign : string;
  alignSelf : string;
  width : string
}.

(** [list.includes(x)]: equality of Numbers, with [NaN] equal to itself. *)
Definition includes (l : list float) (x : float) : bool :=
  existsb (fun y => (y =? x)%float || (is_nan y && is_nan x)) l.

(** [getPositionStyle()] (lines 154-176) for a style that is present. *)
Definition positionOf (style : Style.t) : PositionStyle :=
  let alignment := orElse (Style.alignment style) 2 in
  if includes [1; 4; 7]%float alignment then
    {| textAlign := "left"; alignSelf := "flex-start"; width := "100%" |}
  else if includes [3; 6; 9]%float alignment then
    {| textAlign := "right"; alignSelf := "flex-end"; width := "100%" |}
  else
    {| textAlign := "center"; alignSelf := "center"; width := "100%" |}.

(** [getPositionStyle()]: [None] is the empty object returned without a style. *)
Definition getPositionStyle (style : option Style.t) : option PositionStyle :=
  match style with
  | None => None
  | Some st => Some (positionOf st)
  end.

(** Whether a closing brace occurs in [s]. *)
Fixpoint hasClose (s : string) : bool :=
  match s with
  | EmptyString => false
  | String c r => Ascii.eqb c "}" || hasClose r
  end.

(** [text.replace(/\{[^}]*\}/g, '')]: a match starts at an opening brace that
    has a closing brace after it and ends at the first such brace; [inTag] says
    that the scan is inside a match. *)
Fixpoint removeTags (inTag : bool) (s : string) : string :=
  match s with
  | EmptyString => EmptyString
  | String c r =>
      if inTag then removeTags (negb (Ascii.eqb c "}")) r
      else if Ascii.eqb c "{" && hasClose r then removeTags true r
      else String c (removeTags false r)
  end.

Definition newline : string := String ASSParser.LF EmptyString.

(** [cleanText(text)] (lines 179-184) *)
Definition cleanText (text : string) : string :=
  replaceAll "\" "n" newline
    (replaceAll "\" "N" newline
       (removeTags false text)).





#[local] Set Warnings "-inexact-float".


#[local] Set Warnings "+inexact-float".


End SubtitleRenderer.

(** ** The component App: its state and its handlers *)
Module App.
Import JS.

(** The playback status the video player reports: a property that is absent
    reads [undefined], which is [false] for a flag and [None] for a Number. *)
Record PlaybackStatus := mkStatus {
  isLoaded : bool;
  isPlaying : bool;
  positionMillis : option float;
  durationMillis : option float
}.

(** The state of the component that the handlers below read and set:
    [status], [subtitles] and [assParser] ([null] is [None]). *)
Record t := mk {
  status : PlaybackStatus;
  subtitles : list Event.t;
  assParser : option ASSParser.t
}.

(** The state of the first render (lines 196-198). *)
Definition initial : t :=
  {| status := mkStatus false false None None; subtitles := []; assParser := None |}.

(** What [await fetch(SUBTITLE_URL)] and [await response.text()] give: an error
    thrown with a message, or a response with its [ok] flag, its status and
    its text. *)
Inductive Fetched :=
  | Threw (message : string)
  | Responded (ok : bool) (httpStatus : float) (text : string).

(** The body of the [try] of [loadSubtitles] (lines 220-239): the content the
    parser is built from, or the message of the error thrown. *)
Definition fetchedContent (r : Fetched) : string + string :=
  match r with
  | Threw message => inr message
  | Responded ok httpStatus text =>
      if negb ok then inr ("HTTP error! status: " ++ numberToString httpStatus)
      else if String.eqb text "" || (String.length (trim text) =? 0)
      then inr "Empty subtitle file"
      else inl text
  end.

(** [loadSubtitles()] (lines 218-245) on what the fetch gave: the new state
    and the text of the alert, if one is shown.  The console output is left
    out. *)
Definition loadSubtitles (r : Fetched) (st : t) : t * option string :=
  match fetchedContent r with
  | inl assContent =>
      ({| status := status st; subtitles := subtitles st;
          assParser := Some (ASSParser.parseASS assContent) |}, None)
  | inr message => (st, Some ("Failed to load subtitles: " ++ message))
  end.

(** [updateSubtitles(playbackStatus)] (lines 247-253) *)
Definition updateSubtitles (playbackStatus : PlaybackStatus) (st : t) : t :=
  match assParser st, positionMillis playbackStatus with
  | Some parser, Some currentTime =>
      if truthyNumber currentTime then
        {| status := status st;
           subtitles := ASSParser.getActiveSubtitles parser currentTime;
           assParser := assParser st |}
      else st
  | _, _ => st
  end.

(** [handlePlaybackStatusUpdate(playbackStatus)] (lines 255-260) *)
Definition handlePlaybackStatusUpdate (playbackStatus : PlaybackStatus) (st : t) : t :=
  let st := {| status := playbackStatus; subtitles := subtitles st;
               assParser := assParser st |} in
  if isLoaded playbackStatus then updateSubtitles playbackStatus st else st.

(** The call [togglePlayPause()] makes on the player (lines 262-268). *)
Inductive PlayerCall := pauseAsync | playAsync.

Definition togglePlayPause (st : t) : PlayerCall :=
  if isPlaying (status st) then pauseAsync else playAsync.

(** [seekVideo(seconds)] (lines 270-278): the position passed to
    [setPositionAsync], or [None] when the call is not made. *)
Definition seekVideo (seconds : float) (st : t) : option float :=
  match durationMillis (status st) with
  | Some duration =>
      if isLoaded (status st) && truthyNumber duration then
        Some (mathMax 0
                (mathMin (numberOr (positionMillis (status st)) 0
                          + seconds * 1000)%float
                         duration))
      else None
  | None => None
  end.

End App.

(** ** The vocabulary of the specification and of the proofs *)
Module Spec.
Import JS.

(** *** Numbers *)

(** The sign of a float that is neither a zero nor [NaN]. *)
Definition signOf (f : spec_float) : option bool :=
  match f with
  | S754_finite s _ _ | S754_infinity s => Some s
  | _ => None
  end.

(** The value of the finite float [(s, m, e)] counted in units of [2^ez], for
    an [ez] that is at most [e]. *)
Definition scaled (s : bool) (m : positive) (e ez : Z) : Z :=
  cond_Zopp s (Zpos m * 2 ^ (e - ez)).

(** The place of a float that is not [NaN] in the order of the integers: its
    value counted in units of [2^-1074], the least positive double, and an
    integer past every such value for an infinity. *)
Definition orderKey (x : spec_float) : Z :=
  match x with
  | S754_zero _ | S754_nan => 0
  | S754_infinity s => cond_Zopp s (2 ^ 2200)
  | S754_finite s m e => scaled s m e (-1074)
  end.

(** Whether a Number is an integer: a zero, or a finite value whose mantissa
    has no bit below the unit. *)
Definition isInteger (x : float) : bool :=
  match Prim2SF x with
  | S754_zero _ => true
  | S754_finite _ m e => (0 <=? e)%Z || (Z.land (Zpos m) (Z.ones (- e)) =? 0)%Z
  | _ => false
  end.

(** The formula of the Time Codec, in exact arithmetic:
    [round(hours * 3600000 + minutes * 60000 + seconds * 1000)] for the seconds
    [secDigits / 10^secScale], a half rounding up. *)
Definition roundedMillis (hours minutes secDigits : Z) (secScale : nat) : Z :=
  let den := (10 ^ Z.of_nat secScale)%Z in
  ((2 * ((hours * 3600000 + minutes * 60000) * den + secDigits * 1000) + den)
   / (2 * den))%Z.

(** *** Colours *)

Definition isHexDigit (c : ascii) : bool :=
  match digitValue c with
  | Some d => (d <? 16)%N
  | None => false
  end.

(** The colour encoding of the specification: the sentinels [&H] and [&] around
    six hexadecimal digits, the bytes blue, green, red. *)
Definition isBgrField (s : string) : bool :=
  startsWith s "&H" && endsWith s "&" &&
  (String.length s =? 9) &&
  forallb isHexDigit (list_ascii_of_string (slice s 2 (-1))).

(** A colour field made of six code units between the sentinels. *)
Definition bgrField (b1 b2 g1 g2 r1 r2 : ascii) : string :=
  String "&" (String "H" (String b1 (String b2 (String g1 (String g2
    (String r1 (String r2 (String "&" EmptyString)))))))).

(** The byte two hexadecimal digits denote. *)
Definition byteOf (hi lo : N) : N := (16 * hi + lo)%N.

(** The text of a red-green-blue value. *)
Definition rgbText (r g b : N) : string :=
  "rgb(" ++ decimal r ++ ", " ++ decimal g ++ ", " ++ decimal b ++ ")".

(** Every code unit, in order. *)
Definition allUnits : list ascii := map ascii_of_nat (seq 0 256).

(** Whether [parseInt] in radix 16 reads the two code units [a], [b] as the
    byte they denote, when both are hexadecimal digits. *)
Definition readsByte (a b : ascii) : bool :=
  match digitValue a, digitValue b with
  | Some hi, Some lo =>
      negb ((hi <? 16)%N && (lo <? 16)%N) ||
      String.eqb (numberToString (parseInt (String a (String b EmptyString)) 16))
                 (decimal (byteOf hi lo))
  | _, _ => true
  end.

(** *** Markup *)

(** Tag removal as the specification words it: every substring from an opening
    brace to the first closing brace after it is dropped, both braces included;
    a code unit that opens no such substring is kept. *)
Inductive TagsRemoved : string -> string -> Prop :=
  | TagsRemoved_end : TagsRemoved "" ""
  | TagsRemoved_tag (body rest out : string) :
      SubtitleRenderer.hasClose body = false ->
      TagsRemoved rest out ->
      TagsRemoved (String "{" (body ++ String "}" rest)) out
  | TagsRemoved_keep (c : ascii) (rest out : string) :
      Ascii.eqb c "{" && SubtitleRenderer.hasClose rest = false ->
      TagsRemoved rest out ->
      TagsRemoved (String c rest) (String c out).

(** Whether the two code units [a], [b] occur next to each other in [s]. *)
Fixpoint occurs (a b : ascii) (s : string) : bool :=
  match s with
  | String x (String y _ as t) => (Ascii.eqb x a && Ascii.eqb y b) || occurs a b t
  | _ => false
  end.

(** Whether [s] starts with the code unit [d]. *)
Definition headIs (d : ascii) (s : string) : bool :=
  match s with
  | String y _ => Ascii.eqb y d
  | EmptyString => false
  end.

(** Whether a field holds the separator [c]. *)
Fixpoint holds (c : ascii) (s : string) : bool :=
  match s with
  | EmptyString => false
  | String a r => Ascii.eqb a c || holds c r
  end.

(** *** Alignment *)

Inductive Justify := JustifyLeft | JustifyCenter | JustifyRight.
Inductive Anchor := AnchorTop | AnchorMiddle | AnchorBottom.

(** The keypad convention: 1-3 bottom row, 4-6 middle row, 7-9 top row; within
    a row 1/4/7 left, 2/5/8 center, 3/6/9 right. *)
Definition keypadColumn (code : Z) : Justify :=
  match code with
  | 1 | 4 | 7 => JustifyLeft
  | 3 | 6 | 9 => JustifyRight
  | _ => JustifyCenter
  end%Z.

Definition keypadRow (code : Z) : Anchor :=
  match code with
  | 1 | 2 | 3 => AnchorBottom
  | 4 | 5 | 6 => AnchorMiddle
  | _ => AnchorTop
  end%Z.

(** What the renderer returns for a horizontal justification. *)
Definition positionFor (j : Justify) : SubtitleRenderer.PositionStyle :=
  match j with
  | JustifyLeft =>
      SubtitleRenderer.mkPositionStyle "left" "flex-start" "100%"
  | JustifyRight =>
      SubtitleRenderer.mkPositionStyle "right" "flex-end" "100%"
  | JustifyCenter =>
      SubtitleRenderer.mkPositionStyle "center" "center" "100%"
  end.

(** *** Style table *)

(** The styles of an object all come from a style line. *)
Definition fromLines (this : ASSParser.t) : Prop :=
  forall (k : string) (style : Style.t),
    ASSParser.styles this !! k = Some style ->
    exists line, ASSParser.styleOfLine line = Some style.

(** The style of the sample style line whose alignment field is [a]. *)
Definition styleAligned (a : string) : Style.t :=
  ASSParser.styleOfParts (ASSParser.styleParts
    ("Style: Default,Arial,20,&H00FFFFFF,&H000000FF,&H00000000,&H00000000," ++
     "0,0,0,0,100,100,0,0,1,2,2," ++ a ++ ",10,10,10,1")).

(** *** Order *)

(** [a.start <= b.start], the comparison of JavaScript. *)
Definition startLe (a b : Event.t) : Prop :=
  (Event.start a <=? Event.start b)%float = true.

(** A start time that is a number. *)
Definition numericStart (event : Event.t) : Prop :=
  is_nan (Event.start event) = false.

(** A collection sorted ascending by start time. *)
Definition sortedByStart (l : list Event.t) : Prop := Sorted startLe l.

(** *** Sample inputs *)

Definition nl : string := String ASSParser.LF EmptyString.

(** A style line whose alignment field is [a]. *)
Definition styleLine (a : string) : string :=
  "Style: Default,Arial,20,&H00FFFFFF,&H000000FF,&H00000000,&H00000000," ++
  "0,0,0,0,100,100,0,0,1,2,2," ++ a ++ ",10,10,10,1".

(** A style line of exactly 16 fields. *)
Definition shortStyleLine : string :=
  "Style: Default,Arial,20,&H00FFFFFF,&H000000FF,&H00000000,&H00000000," ++
  "0,0,0,0,100,100,0,0,1".

(** A dialogue line from its two timestamps and its text. *)
Definition dialogueLine (start stop text : string) : string :=
  "Dialogue: 0," ++ start ++ "," ++ stop ++ ",Default,,0,0,0,," ++ text.

(** A track of two events whose intervals are [0, 1000] and [1000, 2000],
    the later one first. *)
Definition adjacentTrack : string :=
  "[Events]" ++ nl ++
  dialogueLine "0:00:01.00" "0:00:02.00" "second" ++ nl ++
  dialogueLine "0:00:00.00" "0:00:01.00" "first".

(** An hours field of 309 digits: its value is above every finite Number. *)
Definition hugeHours : string :=
  "999999999999999999999999999999999999999999999999999999999999999999999999999999999999999999999999999999999999999999999999999999999999999999999999999999999999999999999999999999999999999999999999999999999999999999999999999999999999999999999999999999999999999999999999999999999999999999999999999999999999999999999".

(** A track whose second event starts at [Infinity * 3600 + 0 + -Infinity]. *)
Definition nanTrack : string :=
  "[Events]" ++ nl ++
  dialogueLine "0:00:02.00" "0:00:03.00" "a" ++ nl ++
  dialogueLine (hugeHours ++ ":00:-Infinity") "0:00:03.00" "b" ++ nl ++
  dialogueLine "0:00:01.00" "0:00:03.00" "c".

(** *** Vocabulary of the further properties *)

(** A text without a tag: no opening brace has a closing brace after it. *)
Fixpoint tagFree (s : string) : bool :=
  match s with
  | EmptyString => true
  | String c r =>
      negb (Ascii.eqb c "{" && SubtitleRenderer.hasClose r) && tagFree r
  end.

(** A text made of white space only (the empty text is one). *)
Fixpoint allWhiteSpace (s : string) : bool :=
  match s with
  | EmptyString => true
  | String c r => isWhiteSpace c && allWhiteSpace r
  end.

(** The lines of a content, as the loop of [parseASS] sees them. *)
Definition linesOf (assContent : string) : list string :=
  map trim (split ASSParser.LF assContent).

(** The section a line opens, if it is a header. *)
Definition sectionOf (line : string) : option string :=
  if startsWith line "[" && endsWith line "]"
  then Some (toLowerCase (slice line 1 (-1)))
  else None.

(** The subtitles on display are events of the loaded track. *)
Definition showsTrackEvents (st : App.t) : Prop :=
  forall event : Event.t,
    In event (App.subtitles st) ->
    exists parser : ASSParser.t,
      App.assParser st = Some parser /\ In event (ASSParser.events parser).

(** A status that reports the position [position] on a loaded video. *)
Definition loadedAt (position : float) : App.PlaybackStatus :=
  App.mkStatus true true (Some position) (Some 60000%float).

(** The last position, in a series of reported statuses, that
    [handlePlaybackStatusUpdate] passes to the query: the status is loaded and
    its position is truthy. *)
Fixpoint lastPosition (reports : list App.PlaybackStatus) : option float :=
  match reports with
  | [] => None
  | report :: later =>
      match lastPosition later with
      | Some t => Some t
      | None =>
          if App.isLoaded report && truthy (App.positionMillis report)
          then App.positionMillis report else None
      end
  end.

(** The state after a series of reported statuses. *)
Definition afterReports (reports : list App.PlaybackStatus) (st : App.t) : App.t :=
  fold_left (fun st report => App.handlePlaybackStatusUpdate report st) reports st.

(** The position [seekVideo] aims at, before it is clamped. *)
Definition seekTarget (seconds : float) (st : App.t) : float :=
  (numberOr (App.positionMillis (App.status st)) 0 + seconds * 1000)%float.

(** The events and styles of the loop come from lines of the content, and a
    style is stored under its name. *)
Definition fromContent (lines : list string) (this : ASSParser.t) : Prop :=
  (forall event : Event.t,
      In event (ASSParser.events this) ->
      exists line, In line lines /\ startsWith line "Dialogue:" = true /\
                   ASSParser.eventOfLine line = Some event) /\
  (forall (k : string) (style : Style.t),
      ASSParser.styles this !! k = Some style ->
      Style.name style = k /\
      exists line, In line lines /\ startsWith line "Style:" = true /\
                   ASSParser.styleOfLine line = Some style).

(** A track with two style lines of the same name, the first aligned at 7 and
    the second at 9, and one event. *)
Definition restyledTrack : string :=
  "[V4+ Styles]" ++ nl ++ styleLine "7" ++ nl ++ styleLine "9" ++ nl ++
  "[Events]" ++ nl ++ dialogueLine "0:00:00.00" "0:00:01.00" "first".

(** A colour field with text after its six digits. *)
Definition bgrFieldWith (b1 b2 g1 g2 r1 r2 : ascii) (tail : string) : string :=
  String "&" (String "H" (String b1 (String b2 (String g1 (String g2
    (String r1 (String r2 (tail ++ "&")))))))).

(** *** Whole seconds *)

(** The binary64 form of a positive integer below [2^53]: the mantissa shifted
    to 53 bits, and the exponent that undoes the shift. *)
Definition intMantissa (z : positive) : positive :=
  match (53 - Zpos (digits2_pos z))%Z with
  | Zpos j => shift_pos j z
  | _ => z
  end.

Definition intExponent (z : positive) : Z := Z.min 0 (Zpos (digits2_pos z) - 53)%Z.

(** A field of a timestamp written as a whole number: decimal digits, at
    least one. *)
Definition isDecimalDigit (c : ascii) : bool :=
  let n := N_of_ascii c in (48 <=? n)%N && (n <=? 57)%N.

Fixpoint allDecimal (s : string) : bool :=
  match s with
  | EmptyString => true
  | String c r => isDecimalDigit c && allDecimal r
  end.

Definition wholeNumber (s : string) : bool :=
  match s with
  | EmptyString => false
  | String _ _ => allDecimal s
  end.

(** The number that decimal digits denote. *)
Fixpoint decimalFrom (acc : N) (s : string) : N :=
  match s with
  | EmptyString => acc
  | String c r => decimalFrom (acc * 10 + (N_of_ascii c - 48))%N r
  end.

Definition decimalValue (s : string) : N := decimalFrom 0 s.

(** The milliseconds of hours, minutes and seconds written as whole numbers. *)
Definition wholeMillis (h m s : string) : N :=
  ((3600 * decimalValue h + 60 * decimalValue m + decimalValue s) * 1000)%N.

End Spec.

(** * Properties *)

(** ** Facts on binary64 arithmetic

    The sort of [parseASS] orders two events by the sign of the difference of
    their start times.  The facts below relate that sign to the comparison
    [<=] of the two times, from the specification of the float operations:
    the rounded difference of two finite floats has the sign of the exact
    difference, since a difference that is not zero is at least one unit of
    the least exponent and so never rounds to zero. *)
Module FloatFacts.
Import Spec.
Local Open Scope Z_scope.

Lemma digits2_pos_bounds (m : positive) :
  2 ^ (Zpos (digits2_pos m) - 1) <= Zpos m < 2 ^ Zpos (digits2_pos m).
Proof.
  induction m as [m IH | m IH |]; cbn [digits2_pos].
  - rewrite Pos2Z.inj_succ.
    replace (Z.succ (Zpos (digits2_pos m)) - 1) with (Zpos (digits2_pos m) - 1 + 1) by lia.
    rewrite Z.pow_succ_r by lia. rewrite Z.pow_add_r by lia.
    change (2 ^ 1) with 2. lia.
  - rewrite Pos2Z.inj_succ.
    replace (Z.succ (Zpos (digits2_pos m)) - 1) with (Zpos (digits2_pos m) - 1 + 1) by lia.
    rewrite Z.pow_succ_r by lia. rewrite Z.pow_add_r by lia.
    change (2 ^ 1) with 2. lia.
  - cbn. lia.
Qed.

Lemma shr_1_digits (s : shr_record) :
  0 <= shr_m s ->
  0 <= shr_m (shr_1 s) /\
  Zdigits2 (shr_m (shr_1 s)) = Z.max 0 (Zdigits2 (shr_m s) - 1).
Proof.
  destruct s as [m r t]; cbn [shr_m]. intros Hm.
  destruct m as [| p | p]; [cbn; lia | | lia].
  destruct p; cbn [shr_1 shr_m Zdigits2 digits2_pos]; lia.
Qed.

Lemma iter_shr_1_digits (p : positive) : forall s : shr_record,
  0 <= shr_m s ->
  0 <= shr_m (iter_pos shr_1 p s) /\
  Zdigits2 (shr_m (iter_pos shr_1 p s)) = Z.max 0 (Zdigits2 (shr_m s) - Zpos p).
Proof.
  induction p as [p IH | p IH |]; intros s Hs; cbn [iter_pos].
  - destruct (shr_1_digits s Hs) as [H1 E1].
    destruct (IH _ H1) as [H2 E2]. destruct (IH _ H2) as [H3 E3].
    split; [exact H3 |]. rewrite E3, E2, E1. lia.
  - destruct (IH _ Hs) as [H2 E2]. destruct (IH _ H2) as [H3 E3].
    split; [exact H3 |]. rewrite E3, E2. lia.
  - exact (shr_1_digits s Hs).
Qed.

Lemma fexp64 (x : Z) : fexp prec emax x = Z.max (x - 53) (-1074).
Proof. reflexivity. Qed.

Lemma shr_fexp_positive (m : positive) (e : Z) (l : location) :
  -1074 <= e ->
  exists m', shr_m (fst (shr_fexp prec emax (Zpos m) e l)) = Zpos m' /\
             -1074 <= snd (shr_fexp prec emax (Zpos m) e l).
Proof.
  intros He. unfold shr_fexp, shr. rewrite fexp64. cbn [Zdigits2].
  assert (Hrec : shr_m (shr_record_of_loc (Zpos m) l) = Zpos m)
    by (destruct l as [| []]; reflexivity).
  destruct (Z.max (Zpos (digits2_pos m) + e - 53) (-1074) - e) as [| p | p] eqn:En;
    cbn [fst snd].
  - rewrite Hrec. exists m. split; [reflexivity | lia].
  - destruct (iter_shr_1_digits p (shr_record_of_loc (Zpos m) l)) as [Hn Hd];
      [rewrite Hrec; lia |].
    rewrite Hrec in Hd. cbn [Zdigits2] in Hd.
    destruct (shr_m (iter_pos shr_1 p (shr_record_of_loc (Zpos m) l))) as [| q | q].
    + cbn [Zdigits2] in Hd. lia.
    + split with q. split; [reflexivity | lia].
    + lia.
  - rewrite Hrec. exists m. split; [reflexivity | lia].
Qed.

Lemma round_nearest_even_positive (m : positive) (l : location) :
  exists m', round_nearest_even (Zpos m) l = Zpos m'.
Proof.
  destruct l as [| [| |]]; cbn [round_nearest_even].
  - exists m. reflexivity.
  - destruct (Z.even (Zpos m)); [exists m | exists (m + 1)%positive]; reflexivity.
  - exists m. reflexivity.
  - exists (m + 1)%positive. reflexivity.
Qed.

Lemma binary_round_aux_sign (s : bool) (m : positive) (e : Z) (l : location) :
  -1074 <= e ->
  signOf (binary_round_aux prec emax s (Zpos m) e l) = Some s.
Proof.
  intros He. unfold binary_round_aux.
  destruct (shr_fexp_positive m e l He) as (m1 & E1 & He1).
  destruct (shr_fexp prec emax (Zpos m) e l) as [mrs1 e1]. cbn [fst snd] in E1, He1.
  rewrite E1.
  destruct (round_nearest_even_positive m1 (loc_of_shr_record mrs1)) as (m2 & E2).
  rewrite E2.
  destruct (shr_fexp_positive m2 e1 loc_Exact He1) as (m3 & E3 & He3).
  destruct (shr_fexp prec emax (Zpos m2) e1 loc_Exact) as [mrs3 e3]. cbn [fst snd] in E3, He3.
  rewrite E3. destruct (e3 <=? emax - prec); reflexivity.
Qed.

Lemma binary_round_sign (s : bool) (m : positive) (e : Z) :
  -1074 <= e ->
  signOf (binary_round prec emax s m e) = Some s.
Proof.
  intros He. unfold binary_round, shl_align. rewrite fexp64.
  destruct (Z.max (Zpos (digits2_pos m) + e - 53) (-1074) - e) eqn:En;
    apply binary_round_aux_sign; lia.
Qed.

Lemma shl_align_value (m : positive) (e ez : Z) :
  ez <= e -> Zpos (fst (shl_align m e ez)) = Zpos m * 2 ^ (e - ez).
Proof.
  intros H. unfold shl_align.
  destruct (ez - e) as [| p | p] eqn:E; cbn [fst].
  - replace (e - ez) with 0 by lia. cbn. lia.
  - lia.
  - change (Pos.iter xO m p) with (shift_pos p m).
    rewrite shift_pos_correct, Zpower_pos_nat, Zpower_nat_Z, positive_nat_Z.
    replace (e - ez) with (Zpos p) by lia. lia.
Qed.

Lemma canonical_bounds (m : positive) (e : Z) :
  bounded prec emax m e = true ->
  -1074 <= e /\ Zpos (digits2_pos m) <= 53 /\
  (-1074 < e -> Zpos (digits2_pos m) = 53).
Proof.
  unfold bounded, canonical_mantissa. rewrite fexp64.
  intros H. apply andb_prop in H. destruct H as [H _].
  apply Z.eqb_eq in H. lia.
Qed.

Lemma scaled_lt_of_exp_lt (m1 m2 : positive) (e1 e2 : Z) :
  bounded prec emax m1 e1 = true -> bounded prec emax m2 e2 = true ->
  e1 < e2 ->
  Zpos m1 * 2 ^ (e1 - Z.min e1 e2) < Zpos m2 * 2 ^ (e2 - Z.min e1 e2).
Proof.
  intros B1 B2 Hlt.
  destruct (canonical_bounds _ _ B1) as (He1 & Hd1 & _).
  destruct (canonical_bounds _ _ B2) as (He2 & _ & Hd2).
  specialize (Hd2 ltac:(lia)).
  pose proof (digits2_pos_bounds m1) as [_ Hm1].
  pose proof (digits2_pos_bounds m2) as [Hm2 _].
  rewrite Hd2 in Hm2.
  rewrite Z.min_l by lia. replace (e1 - e1) with 0 by lia.
  rewrite Z.pow_0_r, Z.mul_1_r.
  assert (H53 : 2 ^ Zpos (digits2_pos m1) <= 2 ^ 53)
    by (apply Z.pow_le_mono_r; lia).
  assert (Hp : 2 ^ 1 <= 2 ^ (e2 - e1)) by (apply Z.pow_le_mono_r; lia).
  change (2 ^ 1) with 2 in Hp.
  change (2 ^ (53 - 1)) with 4503599627370496 in Hm2.
  change (2 ^ 53) with 9007199254740992 in H53.
  nia.
Qed.

Lemma SFcompare_finite (s1 s2 : bool) (m1 m2 : positive) (e1 e2 : Z) :
  bounded prec emax m1 e1 = true -> bounded prec emax m2 e2 = true ->
  SFcompare (S754_finite s1 m1 e1) (S754_finite s2 m2 e2) =
  Some (scaled s1 m1 e1 (Z.min e1 e2) ?= scaled s2 m2 e2 (Z.min e1 e2)).
Proof.
  intros B1 B2. unfold SFcompare, scaled. f_equal.
  assert (P1 : 0 < Zpos m1 * 2 ^ (e1 - Z.min e1 e2))
    by (apply Z.mul_pos_pos; [lia | apply Z.pow_pos_nonneg; lia]).
  assert (P2 : 0 < Zpos m2 * 2 ^ (e2 - Z.min e1 e2))
    by (apply Z.mul_pos_pos; [lia | apply Z.pow_pos_nonneg; lia]).
  destruct s1, s2; cbn [cond_Zopp].
  - destruct (Z.compare_spec e1 e2) as [E | L | G].
    + subst e2. rewrite Z.min_id, Z.sub_diag, Z.pow_0_r, !Z.mul_1_r.
      reflexivity.
    + pose proof (scaled_lt_of_exp_lt _ _ _ _ B1 B2 L).
      symmetry. apply Z.compare_gt_iff. lia.
    + pose proof (scaled_lt_of_exp_lt _ _ _ _ B2 B1 ltac:(lia)) as H.
      rewrite (Z.min_comm e2 e1) in H.
      symmetry. apply Z.compare_lt_iff. lia.
  - symmetry. apply Z.compare_lt_iff. lia.
  - symmetry. apply Z.compare_gt_iff. lia.
  - destruct (Z.compare_spec e1 e2) as [E | L | G].
    + subst e2. rewrite Z.min_id, Z.sub_diag, Z.pow_0_r, !Z.mul_1_r.
      reflexivity.
    + pose proof (scaled_lt_of_exp_lt _ _ _ _ B1 B2 L).
      symmetry. apply Z.compare_lt_iff. lia.
    + pose proof (scaled_lt_of_exp_lt _ _ _ _ B2 B1 ltac:(lia)) as H.
      rewrite (Z.min_comm e2 e1) in H.
      symmetry. apply Z.compare_gt_iff. lia.
Qed.

Lemma SFsub_finite_sign (s1 s2 : bool) (m1 m2 : positive) (e1 e2 : Z) :
  bounded prec emax m1 e1 = true -> bounded prec emax m2 e2 = true ->
  SFltb (SFsub prec emax (S754_finite s1 m1 e1) (S754_finite s2 m2 e2))
        (S754_zero false) =
  (scaled s1 m1 e1 (Z.min e1 e2) <? scaled s2 m2 e2 (Z.min e1 e2)).
Proof.
  intros B1 B2.
  destruct (canonical_bounds _ _ B1) as (He1 & _).
  destruct (canonical_bounds _ _ B2) as (He2 & _).
  unfold SFsub, scaled.
  rewrite !shl_align_value by lia.
  set (a := cond_Zopp s1 _). set (b := cond_Zopp s2 _).
  unfold binary_normalize.
  destruct (a - b) as [| p | p] eqn:E.
  - cbn. symmetry. apply Z.ltb_ge. lia.
  - pose proof (binary_round_sign false p (Z.min e1 e2) ltac:(lia)) as Hs.
    destruct (binary_round prec emax false p (Z.min e1 e2)); try discriminate;
      injection Hs as ->; cbn; symmetry; apply Z.ltb_ge; lia.
  - pose proof (binary_round_sign true p (Z.min e1 e2) ltac:(lia)) as Hs.
    destruct (binary_round prec emax true p (Z.min e1 e2)); try discriminate;
      injection Hs as ->; cbn; symmetry; apply Z.ltb_lt; lia.
Qed.

(** The two facts a sort by [a - b] needs, on valid floats that are not NaN. *)
Lemma SFsub_neg_leb (x y : spec_float) :
  valid_binary x = true -> valid_binary y = true ->
  SFltb (SFsub prec emax x y) (S754_zero false) = true -> SFleb x y = true.
Proof.
  intros Vx Vy.
  destruct x as [sx | sx | | sx mx ex], y as [sy | sy | | sy my ey];
    try (cbn; congruence);
    try (destruct sx; try destruct sy; cbn; congruence).
  unfold valid_binary in Vx, Vy.
  rewrite SFsub_finite_sign by assumption.
  unfold SFleb. rewrite SFcompare_finite by assumption.
  intros H. apply Z.ltb_lt in H. apply Z.compare_lt_iff in H. rewrite H. reflexivity.
Qed.

Lemma SFsub_nonneg_leb (x y : spec_float) :
  valid_binary x = true -> valid_binary y = true ->
  x <> S754_nan -> y <> S754_nan ->
  SFltb (SFsub prec emax x y) (S754_zero false) = false -> SFleb y x = true.
Proof.
  intros Vx Vy Nx Ny.
  destruct x as [sx | sx | | sx mx ex], y as [sy | sy | | sy my ey];
    try congruence;
    try (cbn; congruence);
    try (destruct sx; try destruct sy; cbn; congruence).
  unfold valid_binary in Vx, Vy.
  rewrite SFsub_finite_sign by assumption.
  unfold SFleb. rewrite SFcompare_finite by assumption.
  intros H. apply Z.ltb_ge in H.
  rewrite (Z.min_comm ey ex).
  destruct (Z.compare_spec (scaled sy my ey (Z.min ex ey)) (scaled sx mx ex (Z.min ex ey)));
      [reflexivity | reflexivity | lia].
Qed.


Lemma is_nan_spec (x : float) : is_nan x = true <-> Prim2SF x = S754_nan.
Proof.
  unfold is_nan. rewrite eqb_spec.
  destruct (Prim2SF x) as [s | s | | s m e] eqn:E; cbn.
  - split; discriminate.
  - destruct s; cbn; split; discriminate.
  - split; reflexivity.
  - unfold SFeqb, SFcompare. 
    destruct s.
    + rewrite Z.compare_refl, Pos.compare_cont_refl. cbn. split; discriminate.
    + rewrite Z.compare_refl, Pos.compare_cont_refl. cbn. split; discriminate.
Qed.

Lemma scaled_rescale (s : bool) (m : positive) (e ez : Z) :
  -1074 <= ez <= e ->
  scaled s m e (-1074) = scaled s m e ez * 2 ^ (ez + 1074).
Proof.
  intros H. unfold scaled.
  replace (e - -1074) with ((e - ez) + (ez + 1074)) by lia.
  rewrite Z.pow_add_r by lia. destruct s; cbn [cond_Zopp]; lia.
Qed.

Lemma scaled_bound (s : bool) (m : positive) (e : Z) :
  bounded prec emax m e = true -> - 2 ^ 2200 < scaled s m e (-1074) < 2 ^ 2200.
Proof.
  intros B. destruct (canonical_bounds _ _ B) as (He & Hd & _).
  assert (Hmax : e <= 971).
  { unfold bounded in B. apply andb_prop in B. destruct B as [_ B].
    apply Z.leb_le in B. exact B. }
  pose proof (digits2_pos_bounds m) as [_ Hm].
  assert (H53 : 2 ^ Zpos (digits2_pos m) <= 2 ^ 53)
    by (apply Z.pow_le_mono_r; lia).
  assert (He2 : 2 ^ (e - -1074) <= 2 ^ 2045) by (apply Z.pow_le_mono_r; lia).
  assert (Hp : 0 < 2 ^ (e - -1074)) by (apply Z.pow_pos_nonneg; lia).
  assert (Hprod : Zpos m * 2 ^ (e - -1074) < 2 ^ 53 * 2 ^ 2045).
  { apply Z.le_lt_trans with (Zpos m * 2 ^ 2045).
    - apply Z.mul_le_mono_nonneg_l; lia.
    - apply Z.mul_lt_mono_pos_r; [apply Z.pow_pos_nonneg; lia | lia]. }
  rewrite <- Z.pow_add_r in Hprod by lia.
  assert (Hbig : 2 ^ (53 + 2045) < 2 ^ 2200) by (apply Z.pow_lt_mono_r; lia).
  unfold scaled. destruct s; cbn [cond_Zopp]; lia.
Qed.

Lemma scaled_sign (s : bool) (m : positive) (e : Z) :
  -1074 <= e ->
  if s then scaled s m e (-1074) < 0 else 0 < scaled s m e (-1074).
Proof.
  intros He. unfold scaled.
  assert (Hp : 0 < Zpos m * 2 ^ (e - -1074))
    by (apply Z.mul_pos_pos; [lia | apply Z.pow_pos_nonneg; lia]).
  destruct s; cbn [cond_Zopp]; lia.
Qed.

(** On valid floats that are not [NaN] the comparison is the order of the
    keys. *)
Lemma SFcompare_key (x y : spec_float) :
  valid_binary x = true -> valid_binary y = true ->
  x <> S754_nan -> y <> S754_nan ->
  SFcompare x y = Some (orderKey x ?= orderKey y).
Proof.
  intros Vx Vy Nx Ny. assert (Hbig : 0 < 2 ^ 2200) by (apply Z.pow_pos_nonneg; lia).
  destruct x as [sx | sx | | sx mx ex], y as [sy | sy | | sy my ey];
    try congruence; unfold valid_binary in Vx, Vy; cbn [SFcompare orderKey].
  - reflexivity.
  - f_equal. symmetry. destruct sy; cbn [cond_Zopp];
      [apply Z.compare_gt_iff | apply Z.compare_lt_iff]; lia.
  - f_equal. symmetry. destruct (canonical_bounds _ _ Vy) as (He & _).
    pose proof (scaled_sign sy my ey He) as Hs.
    destruct sy; [apply Z.compare_gt_iff | apply Z.compare_lt_iff]; lia.
  - f_equal. symmetry. destruct sx; cbn [cond_Zopp];
      [apply Z.compare_lt_iff | apply Z.compare_gt_iff]; lia.
  - f_equal. symmetry. destruct sx, sy; cbn [cond_Zopp];
      [apply Z.compare_eq_iff | apply Z.compare_lt_iff
       | apply Z.compare_gt_iff | apply Z.compare_eq_iff]; lia.
  - f_equal. symmetry. pose proof (scaled_bound sy my ey Vy) as Hb.
    destruct sx; cbn [cond_Zopp];
      [apply Z.compare_lt_iff | apply Z.compare_gt_iff]; lia.
  - f_equal. symmetry. destruct (canonical_bounds _ _ Vx) as (He & _).
    pose proof (scaled_sign sx mx ex He) as Hs.
    destruct sx; [apply Z.compare_lt_iff | apply Z.compare_gt_iff]; lia.
  - f_equal. symmetry. pose proof (scaled_bound sx mx ex Vx) as Hb.
    destruct sy; cbn [cond_Zopp];
      [apply Z.compare_gt_iff | apply Z.compare_lt_iff]; lia.
  - change (Some _ = ?r) with
      (SFcompare (S754_finite sx mx ex) (S754_finite sy my ey) = r).
    rewrite SFcompare_finite by assumption. f_equal.
    destruct (canonical_bounds _ _ Vx) as (Hex & _).
    destruct (canonical_bounds _ _ Vy) as (Hey & _).
    rewrite (scaled_rescale sx mx ex (Z.min ex ey)) by lia.
    rewrite (scaled_rescale sy my ey (Z.min ex ey)) by lia.
    apply Zmult_compare_compat_r. apply Z.lt_gt, Z.pow_pos_nonneg; lia.
Qed.

Lemma SFleb_numbers (x y : spec_float) :
  SFleb x y = true -> x <> S754_nan /\ y <> S754_nan.
Proof.
  unfold SFleb. destruct x, y; cbn [SFcompare]; intros H;
    split; congruence.
Qed.

(** [<=] is transitive: its operands are never [NaN]. *)
Lemma leb_trans (a b c : float) :
  (a <=? b)%float = true -> (b <=? c)%float = true -> (a <=? c)%float = true.
Proof.
  rewrite !leb_spec. intros Hab Hbc.
  destruct (SFleb_numbers _ _ Hab) as [Na Nb].
  destruct (SFleb_numbers _ _ Hbc) as [_ Nc].
  pose proof (Prim2SF_valid a) as Va. pose proof (Prim2SF_valid b) as Vb.
  pose proof (Prim2SF_valid c) as Vc.
  unfold SFleb in *.
  rewrite (SFcompare_key _ _ Va Vb Na Nb) in Hab.
  rewrite (SFcompare_key _ _ Vb Vc Nb Nc) in Hbc.
  rewrite (SFcompare_key _ _ Va Vc Na Nc).
  destruct (Z.compare_spec (orderKey (Prim2SF a)) (orderKey (Prim2SF b)));
    try discriminate;
    destruct (Z.compare_spec (orderKey (Prim2SF b)) (orderKey (Prim2SF c)));
    try discriminate;
    destruct (Z.compare_spec (orderKey (Prim2SF a)) (orderKey (Prim2SF c)));
    try reflexivity; lia.
Qed.

Lemma sub_neg_leb (a b : float) :
  (a - b <? 0)%float = true -> (a <=? b)%float = true.
Proof.
  rewrite ltb_spec, leb_spec, sub_spec.
  apply SFsub_neg_leb; apply Prim2SF_valid.
Qed.

Lemma sub_nonneg_leb (a b : float) :
  is_nan a = false -> is_nan b = false ->
  (a - b <? 0)%float = false -> (b <=? a)%float = true.
Proof.
  intros Na Nb. rewrite ltb_spec, leb_spec, sub_spec.
  apply SFsub_nonneg_leb; try apply Prim2SF_valid.
  - intros E. apply is_nan_spec in E. congruence.
  - intros E. apply is_nan_spec in E. congruence.
Qed.

End FloatFacts.

(** ** Facts on the sort *)
Module SortFacts.
Import JS ASSParser Spec FloatFacts.

Lemma insert_perm (x : Event.t) (l : list Event.t) :
  Permutation (insertBy byStart x l) (x :: l).
Proof.
  induction l as [| y r IH]; cbn [insertBy].
  - apply Permutation_refl.
  - destruct (sortsBefore byStart x y).
    + apply Permutation_refl.
    + eapply perm_trans; [apply perm_skip, IH | apply perm_swap].
Qed.

Lemma fold_insert_perm (l : list Event.t) : forall acc,
  Permutation (fold_left (fun acc x => insertBy byStart x acc) l acc) (acc ++ l).
Proof.
  induction l as [| x r IH]; intros acc; cbn [fold_left].
  - rewrite app_nil_r. apply Permutation_refl.
  - eapply perm_trans; [apply IH |].
    eapply perm_trans; [apply Permutation_app_tail, insert_perm |].
    cbn [app]. apply Permutation_middle.
Qed.

Lemma sort_perm (l : list Event.t) : Permutation (sort byStart l) l.
Proof. exact (fold_insert_perm l []). Qed.

Lemma insert_hd (a x : Event.t) (l : list Event.t) :
  startLe a x -> HdRel startLe a l -> HdRel startLe a (insertBy byStart x l).
Proof.
  intros Hax Hal. destruct l as [| y r]; cbn [insertBy].
  - constructor. exact Hax.
  - destruct (sortsBefore byStart x y); constructor.
    + exact Hax.
    + inversion Hal; assumption.
Qed.

Lemma insert_sorted (x : Event.t) (l : list Event.t) :
  numericStart x -> Forall numericStart l ->
  Sorted startLe l -> Sorted startLe (insertBy byStart x l).
Proof.
  intros Nx. induction l as [| y r IH]; intros Nl Sl; cbn [insertBy].
  - repeat constructor.
  - inversion Nl as [| ? ? Ny Nr]; subst. inversion Sl as [| ? ? Sr Hy]; subst.
    destruct (sortsBefore byStart x y) eqn:E; unfold sortsBefore, byStart in E.
    + constructor; [exact Sl |]. constructor. exact (sub_neg_leb _ _ E).
    + constructor; [exact (IH Nr Sr) |].
      apply insert_hd; [| exact Hy].
      exact (sub_nonneg_leb _ _ Nx Ny E).
Qed.

Lemma fold_insert_sorted (l : list Event.t) : forall acc,
  Forall numericStart acc -> Forall numericStart l -> Sorted startLe acc ->
  Sorted startLe (fold_left (fun acc x => insertBy byStart x acc) l acc).
Proof.
  induction l as [| x r IH]; intros acc Na Nl Sa; cbn [fold_left].
  - exact Sa.
  - inversion Nl as [| ? ? Nx Nr]; subst. apply IH.
    + eapply Permutation_Forall; [apply Permutation_sym, insert_perm |].
      constructor; assumption.
    + exact Nr.
    + apply insert_sorted; assumption.
Qed.

Lemma sort_sorted (l : list Event.t) :
  Forall numericStart l -> Sorted startLe (sort byStart l).
Proof.
  intros Nl. apply fold_insert_sorted; [constructor | exact Nl | constructor].
Qed.

(** The events of a parsed track are the sorted events of the loop. *)
Lemma parseASS_events (assContent : string) :
  events (parseASS assContent) =
  sort byStart
    (events (snd (fold_left parseLine (split LF assContent) (None, new)))).
Proof.
  unfold parseASS.
  destruct (fold_left parseLine (split LF assContent) (None, new)) as [sec this].
  reflexivity.
Qed.

(** [x <= NaN] and [NaN <= x] are both false. *)
Lemma leb_nan_l (x y : float) : is_nan x = true -> (x <=? y)%float = false.
Proof.
  intros H. apply is_nan_spec in H. rewrite leb_spec, H. reflexivity.
Qed.

Lemma leb_nan_r (x y : float) : is_nan y = true -> (x <=? y)%float = false.
Proof.
  intros H. apply is_nan_spec in H. rewrite leb_spec, H.
  destruct (Prim2SF x); reflexivity.
Qed.

(** No list of two or more events that holds a [NaN] start is sorted. *)
Lemma nan_not_sorted (l : list Event.t) :
  2 <= List.length l ->
  Exists (fun event => is_nan (Event.start event) = true) l ->
  ~ Sorted startLe l.
Proof.
  induction l as [| a r IH]; intros Hlen Hex Hs; [cbn in Hlen; lia |].
  inversion Hs as [| ? ? Sr Hd]; subst.
  destruct r as [| b r']; [cbn in Hlen; lia |].
  inversion Hd as [| ? ? Hab]; subst. unfold startLe in Hab.
  inversion Hex as [? ? Ha | ? ? Hr]; subst.
  - rewrite (leb_nan_l _ _ Ha) in Hab. discriminate.
  - destruct r' as [| c r''].
    + inversion Hr as [? ? Hb | ? ? Hn]; subst; [| inversion Hn].
      rewrite (leb_nan_r _ _ Hb) in Hab. discriminate.
    + apply IH; [cbn; lia | exact Hr | exact Sr].
Qed.

End SortFacts.

(** ** Facts on the style table *)
Module StyleFacts.
Import JS ASSParser Spec.

Lemma parseLine_fromLines (st : option string * ASSParser.t) (line : string) :
  fromLines (snd st) -> fromLines (snd (parseLine st line)).
Proof.
  destruct st as [sec this]. unfold parseLine. cbn [snd]. intros Hinv.
  destruct (startsWith (trim line) "[" && endsWith (trim line) "]"); [exact Hinv |].
  destruct (sectionIs sec "v4+ styles" && startsWith (trim line) "Style:").
  - cbn [snd]. unfold parseStyle.
    destruct (styleOfLine (trim line)) as [style |] eqn:E; [| exact Hinv].
    intros k w Hin. cbn [styles] in Hin.
    apply lookup_insert_Some in Hin. destruct Hin as [[_ <-] | [_ Hold]].
    + exists (trim line). exact E.
    + exact (Hinv k w Hold).
  - destruct (sectionIs sec "events" && startsWith (trim line) "Dialogue:");
      [| exact Hinv].
    cbn [snd]. unfold parseDialogue.
    destruct (eventOfLine (trim line)); exact Hinv.
Qed.

Lemma fold_parseLine_fromLines (lines : list string) :
  forall st, fromLines (snd st) -> fromLines (snd (fold_left parseLine lines st)).
Proof.
  induction lines as [| l r IH]; intros st H; cbn [fold_left]; [exact H |].
  apply IH, parseLine_fromLines, H.
Qed.

Lemma parseASS_fromLines (assContent : string) : fromLines (parseASS assContent).
Proof.
  unfold parseASS.
  pose proof (fold_parseLine_fromLines (split LF assContent) (None, new)) as H.
  destruct (fold_left parseLine (split LF assContent) (None, new)) as [sec this].
  cbn [snd] in H. intros k style Hin. cbn [styles] in Hin.
  assert (H0 : fromLines (snd (None (A := string), new))).
  { intros k0 st0 Hin0. cbn [snd new styles] in Hin0.
    rewrite lookup_empty in Hin0. discriminate. }
  apply (H H0) with k. exact Hin.
Qed.

Lemma orElse_nan (x d : float) : is_nan x = true -> orElse x d = d.
Proof. intros H. unfold orElse. rewrite H. reflexivity. Qed.

(** [x || d] with a default that is a number other than zero is one too. *)
Lemma orElse_truthy (x d : float) :
  is_nan d = false -> is_zero d = false ->
  is_nan (orElse x d) = false /\ is_zero (orElse x d) = false.
Proof.
  intros Nd Zd. unfold orElse.
  destruct (is_nan x) eqn:Nx; cbn [orb]; [split; assumption |].
  destruct (is_zero x) eqn:Zx; split; assumption.
Qed.

(** A field past the end of the line is [undefined], which is no number. *)
Lemma intField_absent (parts : list string) (i : nat) :
  List.length parts <= i -> is_nan (intField parts i) = true.
Proof.
  intros H. unfold intField, at_. apply nth_error_None in H. rewrite H.
  vm_compute. reflexivity.
Qed.

Lemma floatField_absent (parts : list string) (i : nat) :
  List.length parts <= i -> is_nan (floatField parts i) = true.
Proof.
  intros H. unfold floatField, at_. apply nth_error_None in H. rewrite H.
  vm_compute. reflexivity.
Qed.

End StyleFacts.

(** ** Facts on split and join *)
Module StringFacts.
Import JS ASSParser Spec.

Lemma split_nonempty (c : ascii) (s : string) : 1 <= List.length (split c s).
Proof.
  induction s as [| a r IH]; cbn [split]; [cbn; lia |].
  destruct (Ascii.eqb a c); [cbn; lia |].
  destruct (split c r); cbn; lia.
Qed.

Lemma join_cons (sep p q : string) (ps : list string) :
  join sep (p :: q :: ps) = p ++ sep ++ join sep (q :: ps).
Proof. reflexivity. Qed.

(** Joining the pieces of a split gives the text back. *)
Lemma join_split (c : ascii) (s : string) :
  join (String c EmptyString) (split c s) = s.
Proof.
  induction s as [| a r IH]; [reflexivity |]. cbn [split].
  destruct (Ascii.eqb a c) eqn:E.
  - apply Ascii.eqb_eq in E. subst a.
    pose proof (split_nonempty c r) as Hn.
    destruct (split c r) as [| q qs]; [cbn in Hn; lia |].
    rewrite join_cons, IH. reflexivity.
  - destruct (split c r) as [| q qs] eqn:Er; [cbn in IH; subst r; reflexivity |].
    destruct qs as [| q' qs'].
    + cbn [join] in IH |- *. rewrite IH. reflexivity.
    + rewrite join_cons in IH |- *. rewrite <- IH. reflexivity.
Qed.

(** A field without the separator, followed by the separator, is a piece. *)
Lemma split_field (c : ascii) (f rest : string) :
  holds c f = false -> split c (f ++ String c rest) = f :: split c rest.
Proof.
  induction f as [| a r IH]; cbn [holds append split]; intros H.
  - rewrite Ascii.eqb_refl. reflexivity.
  - apply orb_false_iff in H. destruct H as [Ha Hr].
    rewrite Ha, (IH Hr). reflexivity.
Qed.

Lemma split_fields (c : ascii) (fs : list string) (rest : string) :
  Forall (fun f => holds c f = false) fs ->
  split c (join (String c EmptyString) (fs ++ [rest])) = (fs ++ split c rest)%list.
Proof.
  induction fs as [| f r IH]; intros H; [reflexivity |].
  inversion H as [| ? ? Hf Hr]; subst.
  change ((f :: r) ++ [rest])%list with (f :: (r ++ [rest]))%list.
  destruct (r ++ [rest])%list as [| q qs] eqn:E;
    [destruct r; discriminate |].
  rewrite join_cons. cbn [append].
  rewrite (split_field c f _ Hf), (IH Hr). reflexivity.
Qed.

Lemma removeFirst_Dialogue (body : string) :
  removeFirst "Dialogue:" ("Dialogue:" ++ body) = body.
Proof. reflexivity. Qed.

End StringFacts.

(** ** Facts on the markup normalizer *)
Module MarkupFacts.
Import JS SubtitleRenderer Spec.

Lemma length_append (s t : string) :
  String.length (s ++ t) = String.length s + String.length t.
Proof.
  induction s as [| c r IH]; cbn [append String.length]; [reflexivity |].
  rewrite IH. reflexivity.
Qed.

(** Inside a tag the scan drops everything up to the first closing brace. *)
Lemma removeTags_inside (body rest : string) :
  hasClose body = false ->
  removeTags true (body ++ String "}" rest) = removeTags false rest.
Proof.
  induction body as [| c r IH]; cbn [hasClose append removeTags]; intros H.
  - reflexivity.
  - apply orb_false_iff in H. destruct H as [Hc Hr]. rewrite Hc. exact (IH Hr).
Qed.

Lemma hasClose_app (body rest : string) :
  hasClose (body ++ String "}" rest) = true.
Proof.
  induction body as [| c r IH]; cbn [append hasClose]; [reflexivity |].
  rewrite IH. apply orb_true_r.
Qed.

(** A text with a closing brace splits at the first one. *)
Lemma first_close (s : string) :
  hasClose s = true ->
  exists body rest, s = body ++ String "}" rest /\ hasClose body = false.
Proof.
  induction s as [| c r IH]; cbn [hasClose]; [discriminate |].
  destruct (Ascii.eqb c "}") eqn:E; cbn [orb]; intros H.
  - apply Ascii.eqb_eq in E. subst c. exists EmptyString, r. split; reflexivity.
  - destruct (IH H) as (body & rest & -> & Hb).
    exists (String c body), rest. split; [reflexivity |].
    cbn [hasClose]. rewrite E, Hb. reflexivity.
Qed.

(** What [removeTags] returns on a text of at most [n] code units is the text
    with its tags removed. *)
Lemma removeTags_spec_bounded (n : nat) : forall s : string,
  String.length s <= n -> TagsRemoved s (removeTags false s).
Proof.
  induction n as [| n IH]; intros s Hlen.
  - destruct s; [constructor | cbn in Hlen; lia].
  - destruct s as [| c r]; [constructor |]. cbn [String.length] in Hlen.
    cbn [removeTags].
    destruct (Ascii.eqb c "{" && hasClose r) eqn:E.
    + apply andb_prop in E. destruct E as [Ec Hr].
      apply Ascii.eqb_eq in Ec. subst c.
      destruct (first_close r Hr) as (body & rest & -> & Hb).
      rewrite (removeTags_inside body rest Hb).
      apply TagsRemoved_tag; [exact Hb |]. apply IH.
      rewrite length_append in Hlen. cbn [String.length] in Hlen. lia.
    + apply TagsRemoved_keep; [exact E |]. apply IH. lia.
Qed.

Lemma removeTags_spec (s : string) : TagsRemoved s (removeTags false s).
Proof. exact (removeTags_spec_bounded (String.length s) s (le_n _)). Qed.

(** The specification determines the result. *)
Lemma TagsRemoved_unique (s out : string) :
  TagsRemoved s out -> out = removeTags false s.
Proof.
  induction 1 as [| body rest out Hb Hrest IH | c rest out Hc Hrest IH].
  - reflexivity.
  - cbn [removeTags]. rewrite Ascii.eqb_refl, hasClose_app. cbn [andb].
    rewrite (removeTags_inside body rest Hb). exact IH.
  - cbn [removeTags]. rewrite Hc, IH. reflexivity.
Qed.

Lemma occurs_cons (c d x : ascii) (t : string) :
  occurs c d (String x t) = (Ascii.eqb x c && headIs d t) || occurs c d t.
Proof.
  destruct t as [| y r]; [| reflexivity].
  cbn [occurs headIs]. rewrite andb_false_r. reflexivity.
Qed.

Lemma replaceAll_step (a b x y : ascii) (rep r : string) :
  replaceAll a b rep (String x (String y r)) =
  if Ascii.eqb x a && Ascii.eqb y b then rep ++ replaceAll a b rep r
  else String x (replaceAll a b rep (String y r)).
Proof. reflexivity. Qed.

(** A replacement never brings a code unit other than the line break to the
    head of the text. *)
Lemma replaceAll_head (a b d : ascii) (s : string) :
  Ascii.eqb ASSParser.LF d = false ->
  headIs d (replaceAll a b newline s) = true -> headIs d s = true.
Proof.
  intros Hd. destruct s as [| x [| y r]]; try (cbn; congruence).
  rewrite replaceAll_step.
  destruct (Ascii.eqb x a && Ascii.eqb y b); cbn [headIs newline append].
  - rewrite Hd. discriminate.
  - trivial.
Qed.

(** A replacement of [ab] by a line break creates no occurrence of [cd]. *)
Lemma replaceAll_keeps_bounded (a b c d : ascii) (n : nat) : forall s : string,
  Ascii.eqb ASSParser.LF c = false -> Ascii.eqb ASSParser.LF d = false ->
  String.length s <= n ->
  occurs c d s = false -> occurs c d (replaceAll a b newline s) = false.
Proof.
  induction n as [| n IH]; intros s Hc Hd Hlen Hs.
  - destruct s; [reflexivity | cbn in Hlen; lia].
  - destruct s as [| x [| y r]]; try reflexivity.
    cbn [String.length] in Hlen.
    rewrite occurs_cons in Hs. apply orb_false_iff in Hs. destruct Hs as [Hxy Ht].
    rewrite replaceAll_step.
    destruct (Ascii.eqb x a && Ascii.eqb y b).
    + cbn [newline append]. rewrite occurs_cons, Hc. cbn [andb orb].
      apply IH; try assumption; [lia |].
      rewrite occurs_cons in Ht. apply orb_false_iff in Ht. exact (proj2 Ht).
    + rewrite occurs_cons. apply orb_false_iff. split.
      * destruct (Ascii.eqb x c) eqn:Ex; [| reflexivity]. cbn [andb] in Hxy |- *.
        destruct (headIs d (replaceAll a b newline (String y r))) eqn:Eh;
          [| reflexivity].
        apply (replaceAll_head a b d _ Hd) in Eh. congruence.
      * apply IH; try assumption. cbn [String.length]. lia.
Qed.

(** After the replacement of [ab] by a line break no [ab] is left. *)
Lemma replaceAll_removes_bounded (a b : ascii) (n : nat) : forall s : string,
  Ascii.eqb ASSParser.LF a = false -> Ascii.eqb ASSParser.LF b = false ->
  String.length s <= n ->
  occurs a b (replaceAll a b newline s) = false.
Proof.
  induction n as [| n IH]; intros s Ha Hb Hlen.
  - destruct s; [reflexivity | cbn in Hlen; lia].
  - destruct s as [| x [| y r]]; try reflexivity.
    cbn [String.length] in Hlen. rewrite replaceAll_step.
    destruct (Ascii.eqb x a && Ascii.eqb y b) eqn:E.
    + cbn [newline append]. rewrite occurs_cons, Ha. cbn [andb orb].
      apply IH; try assumption. lia.
    + rewrite occurs_cons. apply orb_false_iff. split.
      * destruct (Ascii.eqb x a) eqn:Ex; [| reflexivity]. cbn [andb] in E |- *.
        destruct (headIs b (replaceAll a b newline (String y r))) eqn:Eh;
          [| reflexivity].
        apply (replaceAll_head a b b _ Hb) in Eh. cbn [headIs] in Eh. congruence.
      * apply IH; try assumption. cbn [String.length]. lia.
Qed.

End MarkupFacts.

(** ** Facts on the colour codec *)
Module ColourFacts.
Import JS ASSParser Spec.

Lemma allUnits_complete (a : ascii) : In a allUnits.
Proof.
  unfold allUnits. rewrite <- (ascii_nat_embedding a).
  apply in_map, in_seq. pose proof (nat_ascii_bounded a). lia.
Qed.

Lemma readsByte_all :
  forallb (fun a => forallb (readsByte a) allUnits) allUnits = true.
Proof. vm_compute. reflexivity. Qed.

(** [parseInt] in radix 16 reads two hexadecimal digits as their byte, which
    prints in decimal. *)
Lemma parseInt_byte (a b : ascii) (hi lo : N) :
  digitValue a = Some hi -> digitValue b = Some lo ->
  (hi <? 16)%N = true -> (lo <? 16)%N = true ->
  numberToString (parseInt (String a (String b EmptyString)) 16) =
  decimal (byteOf hi lo).
Proof.
  intros Ha Hb Hhi Hlo.
  pose proof readsByte_all as H. rewrite forallb_forall in H.
  specialize (H a (allUnits_complete a)). rewrite forallb_forall in H.
  specialize (H b (allUnits_complete b)). unfold readsByte in H.
  rewrite Ha, Hb, Hhi, Hlo in H. cbn [andb negb orb] in H.
  apply String.eqb_eq, H.
Qed.

End ColourFacts.

(** ** The claims *)
Module Claims.
Import JS ASSParser SubtitleRenderer Spec.
Import FloatFacts SortFacts StyleFacts StringFacts MarkupFacts ColourFacts.

(** C1. For every parsed track and every query time [t], the events that
    [getActiveSubtitles] returns are exactly the events of the track with
    [start <= t] and [t <= end], both ends included; on the track with the
    intervals [0, 1000] and [1000, 2000] the query at 1000 returns both
    events. *)
Theorem getActiveSubtitles_inclusive :
  (forall (assContent : string) (t : float) (event : Event.t),
      In event (getActiveSubtitles (parseASS assContent) t) <->
      In event (events (parseASS assContent)) /\
      (Event.start event <=? t)%float = true /\
      (t <=? Event.end_ event)%float = true) /\
  (forall (assContent : string) (t : float),
      getActiveSubtitles (parseASS assContent) t =
      List.filter (fun event => (Event.start event <=? t)%float &&
                           (t <=? Event.end_ event)%float)
             (events (parseASS assContent))) /\
  map (fun event => (Event.start event, Event.end_ event))
      (events (parseASS adjacentTrack)) =
    [(0, 1000); (1000, 2000)]%float /\
  map Event.text (getActiveSubtitles (parseASS adjacentTrack) 1000) =
    ["first"; "second"].
Proof.
  split; [| split; [| split]].
  - intros assContent t event. unfold getActiveSubtitles.
    rewrite filter_In, andb_true_iff. reflexivity.
  - reflexivity.
  - vm_compute. reflexivity.
  - vm_compute. reflexivity.
Qed.

(** The value [parseTime] computes from the Numbers of three fields. *)
Lemma parseTime_fields (timeStr h m s : string) :
  split ":" timeStr = [h; m; s] ->
  parseTime timeStr =
  ((orElse (parseInt h 0) 0 * 3600 + orElse (parseInt m 0) 0 * 60
    + orElse (parseFloat s) 0) * 1000)%float.
Proof.
  intros E. unfold parseTime, intField, floatField, at_. rewrite E. reflexivity.
Qed.

(** C2 (as amended). For every timestamp text that splits into exactly three
    colon-separated fields, with [H], [M] the Numbers [parseInt] reads from the
    first two and [S] the Number [parseFloat] reads from the third (0 for a
    field that gives none), [parseTime] returns [(H * 3600 + M * 60 + S) * 1000]
    in binary64 arithmetic, with no rounding to an integer. *)
Theorem parseTime_three_fields (timeStr h m s : string) :
  split ":" timeStr = [h; m; s] ->
  parseTime timeStr =
  ((orElse (parseInt h 0) 0 * 3600 + orElse (parseInt m 0) 0 * 60
    + orElse (parseFloat s) 0) * 1000)%float.
Proof. exact (parseTime_fields timeStr h m s). Qed.

(** The theorem on [1:02:03.50]: 3723500 milliseconds. *)
Lemma parseTime_three_fields_witness :
  split ":" "1:02:03.50" = ["1"; "02"; "03.50"] /\
  parseTime "1:02:03.50" = 3723500%float.
Proof.
  split; [reflexivity |].
  rewrite (parseTime_three_fields "1:02:03.50" "1" "02" "03.50" eq_refl).
  vm_compute. reflexivity.
Defined.

(** C2 (as stated) fails on [0:00:02.01]: the formula of the specification
    gives the integer 2010; the code returns the product of the nearest double
    of 2.01 by 1000, which lies strictly between 2009 and 2010 and is not an
    integer. *)
Lemma parseTime_rounded_counterexample :
  split ":" "0:00:02.01" = ["0"; "00"; "02.01"] /\
  roundedMillis 0 0 201 2 = 2010%Z /\
  (2009 <? parseTime "0:00:02.01")%float = true /\
  (parseTime "0:00:02.01" <? ofInteger (roundedMillis 0 0 201 2))%float = true /\
  isInteger (parseTime "0:00:02.01") = false.
Proof. repeat split; vm_compute; reflexivity. Qed.

(** C3. [parseTime] is a total function: it returns a Number on every text.
    A text that does not split into exactly three colon-separated fields gives
    0, as [12:34] does; in a text of three fields a field that fails to parse
    as a number counts as 0 in the result. *)
Theorem parseTime_lenient :
  (forall timeStr : string,
      List.length (split ":" timeStr) <> 3 -> parseTime timeStr = 0%float) /\
  parseTime "12:34" = 0%float /\
  (forall timeStr h m s : string,
      split ":" timeStr = [h; m; s] ->
      let H := orElse (parseInt h 0) 0 in
      let M := orElse (parseInt m 0) 0 in
      let S := orElse (parseFloat s) 0 in
      (is_nan (parseInt h 0) = true ->
       parseTime timeStr = ((0 * 3600 + M * 60 + S) * 1000)%float) /\
      (is_nan (parseInt m 0) = true ->
       parseTime timeStr = ((H * 3600 + 0 * 60 + S) * 1000)%float) /\
      (is_nan (parseFloat s) = true ->
       parseTime timeStr = ((H * 3600 + M * 60 + 0) * 1000)%float)).
Proof.
  split; [| split].
  - intros timeStr Hlen. unfold parseTime.
    destruct (List.length (split ":" timeStr) =? 3) eqn:E; [| reflexivity].
    apply Nat.eqb_eq in E. contradiction.
  - vm_compute. reflexivity.
  - intros timeStr h m s E H M S. rewrite (parseTime_fields _ _ _ _ E).
    fold H M S. repeat split; intros Hn.
    + unfold H. rewrite (orElse_nan _ _ Hn). reflexivity.
    + unfold M. rewrite (orElse_nan _ _ Hn). reflexivity.
    + unfold S. rewrite (orElse_nan _ _ Hn). reflexivity.
Qed.

(** The theorem on a text of four fields and on a text with two fields that
    are no numbers. *)
Lemma parseTime_lenient_witness :
  parseTime "1:2:3:4" = 0%float /\ parseTime "x:01:y" = 60000%float.
Proof.
  split.
  - apply (proj1 parseTime_lenient). vm_compute. discriminate.
  - destruct (proj2 (proj2 parseTime_lenient) "x:01:y" "x" "01" "y" eq_refl)
      as (Hh & _ & _).
    rewrite Hh by (vm_compute; reflexivity). vm_compute. reflexivity.
Defined.

(** C4 (as amended). A colour field that is [&H], six hexadecimal digits and
    [&] gives the red-green-blue text with the three bytes in the reverse
    order, so [&H0000FF&] gives red 255, green 0, blue 0; every colour field
    that does not start with [&H] or does not end with [&] gives the default
    white. *)
Theorem parseColor_bgr :
  (forall (b1 b2 g1 g2 r1 r2 : ascii) (vb1 vb2 vg1 vg2 vr1 vr2 : N),
      digitValue b1 = Some vb1 -> digitValue b2 = Some vb2 ->
      digitValue g1 = Some vg1 -> digitValue g2 = Some vg2 ->
      digitValue r1 = Some vr1 -> digitValue r2 = Some vr2 ->
      forallb (fun v => (v <? 16)%N) [vb1; vb2; vg1; vg2; vr1; vr2] = true ->
      parseColor (bgrField b1 b2 g1 g2 r1 r2) =
      rgbText (byteOf vr1 vr2) (byteOf vg1 vg2) (byteOf vb1 vb2)) /\
  parseColor "&H0000FF&" = rgbText 255 0 0 /\
  rgbText 255 0 0 = "rgb(255, 0, 0)" /\
  (forall colorStr : string,
      startsWith colorStr "&H" && endsWith colorStr "&" = false ->
      parseColor colorStr = "#ffffff").
Proof.
  split; [| split; [| split]].
  - intros b1 b2 g1 g2 r1 r2 vb1 vb2 vg1 vg2 vr1 vr2 B1 B2 G1 G2 R1 R2 Hall.
    cbn [forallb] in Hall.
    repeat (apply andb_prop in Hall; destruct Hall as [? Hall]).
    unfold parseColor.
    change (startsWith (bgrField b1 b2 g1 g2 r1 r2) "&H"
            && endsWith (bgrField b1 b2 g1 g2 r1 r2) "&") with true.
    cbv iota.
    change (slice (bgrField b1 b2 g1 g2 r1 r2) 2 (-1))
      with (String b1 (String b2 (String g1 (String g2
              (String r1 (String r2 EmptyString)))))).
    cbv zeta. cbn [substr substring].
    rewrite (parseInt_byte b1 b2 vb1 vb2), (parseInt_byte g1 g2 vg1 vg2),
      (parseInt_byte r1 r2 vr1 vr2) by assumption.
    reflexivity.
  - vm_compute. reflexivity.
  - vm_compute. reflexivity.
  - intros colorStr H. unfold parseColor. rewrite H. reflexivity.
Qed.

(** The theorem on a colour of three different bytes and on a field without
    the sentinels. *)
Lemma parseColor_bgr_witness :
  parseColor "&H1A2b3C&" = "rgb(60, 43, 26)" /\ parseColor "#ff0000" = "#ffffff".
Proof.
  split.
  - change "&H1A2b3C&" with (bgrField "1" "A" "2" "b" "3" "C").
    rewrite (proj1 parseColor_bgr "1"%char "A"%char "2"%char "b"%char "3"%char
               "C"%char 1%N 10%N 2%N 11%N 3%N 12%N) by reflexivity.
    vm_compute. reflexivity.
  - apply (proj2 (proj2 (proj2 parseColor_bgr))). vm_compute. reflexivity.
Defined.

(** C4 (as stated) fails on [&HZZZZZZ&], which is not in the encoding (its
    digits are not hexadecimal) and is not mapped to white. *)
Lemma parseColor_white_counterexample :
  isBgrField "&HZZZZZZ&" = false /\
  parseColor "&HZZZZZZ&" = "rgb(NaN, NaN, NaN)" /\
  parseColor "&HZZZZZZ&" <> "#ffffff".
Proof.
  split; [vm_compute; reflexivity |]. split; [vm_compute; reflexivity |].
  vm_compute. discriminate.
Qed.

(** C5 (as amended). Every style record of a parsed track is built from the
    fields of a style line of at least 16 fields.  Its alignment is the Number
    read from the 19th field, and 2 when that field gives no number (or zero):
    it is always a number other than zero, with no range check.  In the same
    way a field that gives no number leaves font size 16, scale 100 and 100,
    border style 1 and margins 0. *)
Theorem styles_defaults (assContent name : string) (style : Style.t) :
  styles (parseASS assContent) !! name = Some style ->
  exists parts : list string,
    16 <= List.length parts /\ style = styleOfParts parts /\
    Style.alignment style = orElse (intField parts 18) 2 /\
    is_nan (Style.alignment style) = false /\
    is_zero (Style.alignment style) = false /\
    (is_nan (intField parts 18) = true -> Style.alignment style = 2%float) /\
    (is_nan (intField parts 2) = true -> Style.fontSize style = 16%float) /\
    (is_nan (floatField parts 11) = true -> Style.scaleX style = 100%float) /\
    (is_nan (floatField parts 12) = true -> Style.scaleY style = 100%float) /\
    (is_nan (intField parts 15) = true -> Style.borderStyle style = 1%float) /\
    (is_nan (intField parts 19) = true -> Style.marginL style = 0%float) /\
    (is_nan (intField parts 20) = true -> Style.marginR style = 0%float) /\
    (is_nan (intField parts 21) = true -> Style.marginV style = 0%float).
Proof.
  intros Hin. destruct (parseASS_fromLines assContent name style Hin) as [line E].
  unfold styleOfLine in E.
  destruct (16 <=? List.length (styleParts line)) eqn:L; [| discriminate].
  injection E as <-. exists (styleParts line).
  split; [apply Nat.leb_le, L |]. split; [reflexivity |].
  cbn [styleOfParts Style.alignment Style.fontSize Style.scaleX Style.scaleY
       Style.borderStyle Style.marginL Style.marginR Style.marginV].
  split; [reflexivity |].
  destruct (orElse_truthy (intField (styleParts line) 18) 2 eq_refl eq_refl) as [N Z].
  repeat split; try assumption; intros Hn; apply orElse_nan, Hn.
Qed.

(** The theorem on a style line whose alignment field is no number. *)
Lemma styles_defaults_witness :
  styles (parseASS ("[V4+ Styles]" ++ nl ++ styleLine "top")) !! "Default"
    = Some (styleAligned "top") /\
  is_nan (Style.alignment (styleAligned "top")) = false /\
  is_zero (Style.alignment (styleAligned "top")) = false.
Proof.
  assert (H : styles (parseASS ("[V4+ Styles]" ++ nl ++ styleLine "top"))
                !! "Default" = Some (styleAligned "top"))
    by (vm_compute; reflexivity).
  split; [exact H |].
  destruct (styles_defaults _ _ _ H) as (parts & _ & _ & _ & Hn & Hz & _).
  split; [exact Hn | exact Hz].
Defined.

(** C5 (as stated) fails on a style line whose alignment field is 42: the
    record stored for it has the alignment 42, outside 1 to 9. *)
Lemma styles_alignment_counterexample :
  exists style : Style.t,
    styles (parseASS ("[V4+ Styles]" ++ nl ++ styleLine "42")) !! "Default"
      = Some style /\
    Style.alignment style = 42%float /\
    (Style.alignment style <=? 9)%float = false.
Proof.
  eexists. split; [vm_compute; reflexivity |].
  split; vm_compute; reflexivity.
Qed.

(** C6 (as amended). For every dialogue line with at least 10 comma-separated
    fields, the text of the event that [parseDialogue] appends is the fields
    from the 10th on joined again with commas, with the white space around the
    whole trimmed.  So a text that follows nine fields free of commas is kept
    whole, commas included, up to that trimming: [Hello, world] is not cut at
    its comma. *)
Theorem parseDialogue_text :
  (forall (line : string) (this : ASSParser.t),
      10 <= List.length (dialogueParts line) ->
      exists event : Event.t,
        eventOfLine line = Some event /\
        events (parseDialogue line this) = (events this ++ [event])%list /\
        Event.text event = trim (join "," (skipn 9 (dialogueParts line)))) /\
  (forall (fields : list string) (text : string),
      List.length fields = 9 ->
      Forall (fun f => holds "," f = false) fields ->
      exists event : Event.t,
        eventOfLine ("Dialogue:" ++ join "," (fields ++ [text])) = Some event /\
        Event.text event = trim text) /\
  option_map Event.text
    (eventOfLine (dialogueLine "0:00:00.00" "0:00:01.00" "Hello, world")) =
    Some "Hello, world".
Proof.
  split; [| split].
  - intros line this Hlen. exists (eventOfParts (dialogueParts line)).
    assert (E : eventOfLine line = Some (eventOfParts (dialogueParts line))).
    { unfold eventOfLine. apply Nat.leb_le in Hlen. rewrite Hlen. reflexivity. }
    split; [exact E |]. split; [| reflexivity].
    unfold parseDialogue. rewrite E. reflexivity.
  - intros fields text Hlen Hfree.
    assert (P : dialogueParts ("Dialogue:" ++ join "," (fields ++ [text]))
                = (fields ++ split "," text)%list).
    { unfold dialogueParts. rewrite removeFirst_Dialogue.
      apply split_fields, Hfree. }
    exists (eventOfParts (fields ++ split "," text)). split.
    + unfold eventOfLine. rewrite P, length_app, Hlen.
      pose proof (split_nonempty "," text) as Hn.
      destruct (10 <=? 9 + List.length (split "," text)) eqn:L; [reflexivity |].
      apply Nat.leb_gt in L. lia.
    + cbn [eventOfParts Event.text].
      rewrite skipn_app, Hlen, Nat.sub_diag, skipn_all2 by lia.
      cbn [app]. rewrite skipn_O, join_split. reflexivity.
  - vm_compute. reflexivity.
Qed.

(** The theorem on a text with commas and white space around it. *)
Lemma parseDialogue_text_witness :
  exists event : Event.t,
    eventOfLine (dialogueLine "0:00:00.00" "0:00:01.00" "a, b ,c ") = Some event /\
    events (parseDialogue (dialogueLine "0:00:00.00" "0:00:01.00" "a, b ,c ") new)
      = [event] /\
    Event.text event = "a, b ,c".
Proof.
  destruct (proj1 parseDialogue_text
              (dialogueLine "0:00:00.00" "0:00:01.00" "a, b ,c ") new)
    as (event & E & Hev & Htext).
  - vm_compute. lia.
  - exists event. split; [exact E |]. split; [exact Hev |].
    rewrite Htext. vm_compute. reflexivity.
Defined.

(** C6 (as stated) fails on a text that starts with a space: the fields from
    the 10th on join to [ Hello, world], the parsed text is [Hello, world]. *)
Lemma parseDialogue_text_counterexample :
  exists event : Event.t,
    eventOfLine (dialogueLine "0:00:00.00" "0:00:01.00" " Hello, world")
      = Some event /\
    join "," (skipn 9 (dialogueParts
                 (dialogueLine "0:00:00.00" "0:00:01.00" " Hello, world")))
      = " Hello, world" /\
    Event.text event = "Hello, world" /\
    Event.text event <>
    join "," (skipn 9 (dialogueParts
                 (dialogueLine "0:00:00.00" "0:00:01.00" " Hello, world"))).
Proof.
  eexists. split; [vm_compute; reflexivity |].
  split; [vm_compute; reflexivity |]. split; [vm_compute; reflexivity |].
  vm_compute. discriminate.
Qed.

(** C7. For every raw dialogue text, [cleanText] first removes every substring
    from an opening brace to the first closing brace after it, braces included,
    and then replaces the escapes [\N] and [\n] by a line break, in that
    order; the result holds neither escape.  [{\i1}Hi\Nthere] becomes [Hi], a
    line break, [there]. *)
Theorem cleanText_normalizes :
  (forall raw : string,
      exists stripped : string,
        TagsRemoved raw stripped /\
        (forall other, TagsRemoved raw other -> other = stripped) /\
        cleanText raw =
          replaceAll "\" "n" newline (replaceAll "\" "N" newline stripped) /\
        occurs "\" "N" (cleanText raw) = false /\
        occurs "\" "n" (cleanText raw) = false) /\
  cleanText "{\i1}Hi\Nthere" = "Hi" ++ newline ++ "there".
Proof.
  split; [| vm_compute; reflexivity].
  intros raw. exists (removeTags false raw).
  split; [apply removeTags_spec |].
  split; [intros other H; exact (TagsRemoved_unique raw other H) |].
  split; [reflexivity |]. unfold cleanText. split.
  - apply (replaceAll_keeps_bounded "\" "n" "\" "N" _ _ eq_refl eq_refl (le_n _)).
    apply (replaceAll_removes_bounded "\" "N" _ _ eq_refl eq_refl (le_n _)).
  - apply (replaceAll_removes_bounded "\" "n" _ _ eq_refl eq_refl (le_n _)).
Qed.

(** C8 (as amended). For a style whose alignment is a code from 1 to 9,
    [getPositionStyle] returns the horizontal pair of the code's keypad column:
    1, 4, 7 give [left] and [flex-start]; 3, 6, 9 give [right] and [flex-end];
    2, 5, 8 give [center] and [center].  The keypad row of the code has no
    part in the result. *)
Theorem getPositionStyle_column (style : Style.t) (code : Z) :
  (1 <= code <= 9)%Z ->
  Style.alignment style = ofInteger code ->
  getPositionStyle (Some style) = Some (positionFor (keypadColumn code)).
Proof.
  intros Hr Ha. unfold getPositionStyle, positionOf. rewrite Ha.
  assert (C : (code = 1 \/ code = 2 \/ code = 3 \/ code = 4 \/ code = 5 \/
               code = 6 \/ code = 7 \/ code = 8 \/ code = 9)%Z) by lia.
  repeat (destruct C as [-> | C]); try subst code; vm_compute; reflexivity.
Qed.

(** The theorem on the styles parsed from the alignment fields 7, 9 and 5. *)
Lemma getPositionStyle_column_witness :
  getPositionStyle (Some (styleAligned "7")) =
    Some (mkPositionStyle "left" "flex-start" "100%") /\
  getPositionStyle (Some (styleAligned "9")) =
    Some (mkPositionStyle "right" "flex-end" "100%") /\
  getPositionStyle (Some (styleAligned "5")) =
    Some (mkPositionStyle "center" "center" "100%").
Proof.
  split; [| split].
  - apply (getPositionStyle_column (styleAligned "7") 7); [lia |].
    vm_compute. reflexivity.
  - apply (getPositionStyle_column (styleAligned "9") 9); [lia |].
    vm_compute. reflexivity.
  - apply (getPositionStyle_column (styleAligned "5") 5); [lia |].
    vm_compute. reflexivity.
Defined.

(** C8 (as stated) fails: the codes 7 (top left) and 1 (bottom left) get the
    same result, so nothing read from the result is the block anchor of the
    keypad convention. *)
Lemma getPositionStyle_anchor_counterexample :
  Style.alignment (styleAligned "7") = 7%float /\
  Style.alignment (styleAligned "1") = 1%float /\
  getPositionStyle (Some (styleAligned "7")) =
  getPositionStyle (Some (styleAligned "1")) /\
  keypadRow 7 = AnchorTop /\ keypadRow 1 = AnchorBottom /\
  ~ exists anchorOf : option PositionStyle -> Anchor,
      forall (style : Style.t) (code : Z),
        (1 <= code <= 9)%Z ->
        Style.alignment style = ofInteger code ->
        anchorOf (getPositionStyle (Some style)) = keypadRow code.
Proof.
  assert (E : getPositionStyle (Some (styleAligned "7")) =
              getPositionStyle (Some (styleAligned "1")))
    by (vm_compute; reflexivity).
  split; [vm_compute; reflexivity |]. split; [vm_compute; reflexivity |].
  split; [exact E |]. split; [reflexivity |]. split; [reflexivity |].
  intros [anchorOf H].
  pose proof (H (styleAligned "7") 7%Z ltac:(lia) ltac:(vm_compute; reflexivity)) as H7.
  pose proof (H (styleAligned "1") 1%Z ltac:(lia) ltac:(vm_compute; reflexivity)) as H1.
  rewrite E in H7. rewrite H7 in H1. discriminate.
Qed.

(** C9 (as amended). For every input text whose parsed events all have a start
    time that is a number, the events of the parsed track are sorted ascending
    by start time, whatever the order of the dialogue lines: each event starts
    no later than the next one, and so no later than any event after it. *)
Theorem parseASS_sorted (assContent : string) :
  Forall numericStart (events (parseASS assContent)) ->
  sortedByStart (events (parseASS assContent)) /\
  StronglySorted startLe (events (parseASS assContent)).
Proof.
  intros Hn.
  assert (S : sortedByStart (events (parseASS assContent))).
  { revert Hn. rewrite parseASS_events. intros Hn. apply sort_sorted.
    eapply Permutation_Forall; [apply sort_perm | exact Hn]. }
  split; [exact S |]. apply Sorted_StronglySorted; [| exact S].
  intros a b c Hab Hbc. exact (leb_trans _ _ _ Hab Hbc).
Qed.

(** The theorem on the track of two events given in the reverse order. *)
Lemma parseASS_sorted_witness :
  Forall numericStart (events (parseASS adjacentTrack)) /\
  sortedByStart (events (parseASS adjacentTrack)) /\
  StronglySorted startLe (events (parseASS adjacentTrack)).
Proof.
  assert (H : Forall numericStart (events (parseASS adjacentTrack))).
  { vm_compute. repeat constructor. }
  split; [exact H | exact (parseASS_sorted adjacentTrack H)].
Defined.

(** C9 (as stated) fails on a track with an event whose start time is [NaN]:
    the hours overflow to [Infinity] and the seconds are [-Infinity].  The
    starts of the parsed events are 2000, [NaN] and 1000, in the order the sort
    leaves them in; whichever order that is, the events are not sorted, since
    no reordering of them is. *)
Lemma parseASS_sorted_counterexample :
  Permutation (map Event.start (events (parseASS nanTrack)))
              [2000; nan; 1000]%float /\
  ~ sortedByStart (events (parseASS nanTrack)) /\
  (forall l, Permutation l (events (parseASS nanTrack)) -> ~ sortedByStart l).
Proof.
  assert (E : Permutation (map Event.start (events (parseASS nanTrack)))
                          [2000; nan; 1000]%float).
  { rewrite parseASS_events.
    eapply Permutation_trans; [apply Permutation_map, sort_perm |].
    vm_compute. apply Permutation_refl. }
  assert (P : forall l, Permutation l (events (parseASS nanTrack)) ->
                        ~ sortedByStart l).
  { intros l Hp.
    assert (El : Permutation (map Event.start l) [2000; nan; 1000]%float)
      by (eapply Permutation_trans; [apply Permutation_map, Hp | exact E]).
    apply nan_not_sorted.
    - rewrite <- (length_map Event.start), (Permutation_length El). cbn. lia.
    - assert (Hn : In nan (map Event.start l)).
      { eapply Permutation_in; [apply Permutation_sym, El |].
        right. left. reflexivity. }
      apply in_map_iff in Hn. destruct Hn as (event & Hs & Hin).
      apply Exists_exists. exists event. split; [exact Hin |].
      rewrite Hs. reflexivity. }
  split; [exact E | split; [apply P, Permutation_refl | exact P]].
Qed.

(** C10. A style line of exactly 16 fields yields a complete style record, which
    [parseStyle] stores under its name: the six fields past the end of the line
    read as [undefined] and leave outline 0, shadow 0, alignment 2 and the
    margins 0. *)
Theorem parseStyle_sixteen_fields (line : string) (this : ASSParser.t) :
  List.length (styleParts line) = 16 ->
  exists style : Style.t,
    styleOfLine line = Some style /\
    styles (parseStyle line this) !! Style.name style = Some style /\
    Style.outline style = 0%float /\
    Style.shadow style = 0%float /\
    Style.alignment style = 2%float /\
    Style.marginL style = 0%float /\
    Style.marginR style = 0%float /\
    Style.marginV style = 0%float.
Proof.
  intros Hlen. exists (styleOfParts (styleParts line)).
  assert (E : styleOfLine line = Some (styleOfParts (styleParts line)))
    by (unfold styleOfLine; rewrite Hlen; reflexivity).
  split; [exact E |]. split.
  - unfold parseStyle. rewrite E. cbn [styles]. apply lookup_insert_eq.
  - cbn [styleOfParts Style.outline Style.shadow Style.alignment Style.marginL
         Style.marginR Style.marginV].
    repeat split; apply orElse_nan;
      (apply intField_absent || apply floatField_absent); rewrite Hlen; lia.
Qed.

(** The theorem on a style line that stops after the border style. *)
Lemma parseStyle_sixteen_fields_witness :
  List.length (styleParts shortStyleLine) = 16 /\
  exists style : Style.t,
    styleOfLine shortStyleLine = Some style /\
    styles (parseStyle shortStyleLine new) !! Style.name style = Some style /\
    Style.outline style = 0%float /\
    Style.shadow style = 0%float /\
    Style.alignment style = 2%float /\
    Style.marginL style = 0%float /\
    Style.marginR style = 0%float /\
    Style.marginV style = 0%float.
Proof.
  split; [reflexivity |].
  exact (parseStyle_sixteen_fields shortStyleLine new eq_refl).
Defined.

End Claims.

(** * Further properties of the code *)

(** ** The order of Numbers *)
Module OrderFacts.
Import JS Spec FloatFacts.

Lemma not_nan (x : float) : is_nan x = false -> Prim2SF x <> S754_nan.
Proof. intros H E. apply is_nan_spec in E. congruence. Qed.

Lemma is_nan_false_spec (x : float) : Prim2SF x <> S754_nan -> is_nan x = false.
Proof.
  intros H. destruct (is_nan x) eqn:E; [| reflexivity].
  apply is_nan_spec in E. contradiction.
Qed.

(** On Numbers the comparisons are those of the keys. *)
Lemma leb_key (a b : float) :
  is_nan a = false -> is_nan b = false ->
  (a <=? b)%float = (orderKey (Prim2SF a) <=? orderKey (Prim2SF b))%Z.
Proof.
  intros Na Nb. rewrite leb_spec. unfold SFleb.
  rewrite (SFcompare_key _ _ (Prim2SF_valid a) (Prim2SF_valid b)
             (not_nan _ Na) (not_nan _ Nb)).
  unfold Z.leb. destruct (orderKey (Prim2SF a) ?= orderKey (Prim2SF b))%Z;
    reflexivity.
Qed.

Lemma ltb_key (a b : float) :
  is_nan a = false -> is_nan b = false ->
  (a <? b)%float = (orderKey (Prim2SF a) <? orderKey (Prim2SF b))%Z.
Proof.
  intros Na Nb. rewrite ltb_spec. unfold SFltb.
  rewrite (SFcompare_key _ _ (Prim2SF_valid a) (Prim2SF_valid b)
             (not_nan _ Na) (not_nan _ Nb)).
  unfold Z.ltb. destruct (orderKey (Prim2SF a) ?= orderKey (Prim2SF b))%Z;
    reflexivity.
Qed.

(** A comparison that holds has Numbers on both sides. *)
Lemma leb_numbers (a b : float) :
  (a <=? b)%float = true -> is_nan a = false /\ is_nan b = false.
Proof.
  rewrite leb_spec. intros H. destruct (SFleb_numbers _ _ H) as [Na Nb].
  split; apply is_nan_false_spec; assumption.
Qed.

Lemma leb_refl (a : float) : is_nan a = false -> (a <=? a)%float = true.
Proof. intros Na. rewrite (leb_key a a Na Na). apply Z.leb_refl. Qed.

Lemma ltb_false_leb (a b : float) :
  is_nan a = false -> is_nan b = false ->
  (a <? b)%float = false -> (b <=? a)%float = true.
Proof.
  intros Na Nb. rewrite (ltb_key a b Na Nb), (leb_key b a Nb Na).
  intros H. apply Z.ltb_ge in H. apply Z.leb_le. exact H.
Qed.

Lemma ltb_true_leb (a b : float) :
  is_nan a = false -> is_nan b = false ->
  (a <? b)%float = true -> (a <=? b)%float = true.
Proof.
  intros Na Nb. rewrite (ltb_key a b Na Nb), (leb_key a b Na Nb).
  intros H. apply Z.ltb_lt in H. apply Z.leb_le. lia.
Qed.

(** [Math.min] and [Math.max] give a Number only on Numbers. *)
Lemma mathMin_number (x y : float) :
  is_nan (mathMin x y) = false -> is_nan x = false /\ is_nan y = false.
Proof.
  unfold mathMin. destruct (is_nan x) eqn:Nx, (is_nan y) eqn:Ny; cbn [orb];
    try (intros H; vm_compute in H; discriminate).
  intros _. split; reflexivity.
Qed.

Lemma mathMax_number (x y : float) :
  is_nan (mathMax x y) = false -> is_nan x = false /\ is_nan y = false.
Proof.
  unfold mathMax. destruct (is_nan x) eqn:Nx, (is_nan y) eqn:Ny; cbn [orb];
    try (intros H; vm_compute in H; discriminate).
  intros _. split; reflexivity.
Qed.

(** [Math.min(x, y)] is at most both arguments. *)
Lemma mathMin_le (x y : float) :
  is_nan x = false -> is_nan y = false ->
  (mathMin x y <=? x)%float = true /\ (mathMin x y <=? y)%float = true.
Proof.
  intros Nx Ny. unfold mathMin. rewrite Nx, Ny. cbn [orb].
  destruct (x <? y)%float eqn:Lxy.
  - split; [apply leb_refl, Nx | apply ltb_true_leb; assumption].
  - destruct (y <? x)%float eqn:Lyx.
    + split; [apply ltb_true_leb; assumption | apply leb_refl, Ny].
    + destruct (get_sign x).
      * split; [apply leb_refl, Nx | apply ltb_false_leb; assumption].
      * split; [apply ltb_false_leb; assumption | apply leb_refl, Ny].
Qed.

(** [Math.max(x, y)] is at least both arguments, and is one of them. *)
Lemma mathMax_ge (x y : float) :
  is_nan x = false -> is_nan y = false ->
  (x <=? mathMax x y)%float = true /\ (y <=? mathMax x y)%float = true /\
  (mathMax x y = x \/ mathMax x y = y).
Proof.
  intros Nx Ny. unfold mathMax. rewrite Nx, Ny. cbn [orb].
  destruct (x <? y)%float eqn:Lxy.
  - split; [apply ltb_true_leb; assumption |].
    split; [apply leb_refl, Ny | right; reflexivity].
  - destruct (y <? x)%float eqn:Lyx.
    + split; [apply leb_refl, Nx |].
      split; [apply ltb_true_leb; assumption | left; reflexivity].
    + destruct (get_sign x).
      * split; [apply ltb_false_leb; assumption |].
        split; [apply leb_refl, Ny | right; reflexivity].
      * split; [apply leb_refl, Nx |].
        split; [apply ltb_false_leb; assumption | left; reflexivity].
Qed.

End OrderFacts.

(** ** Facts on the handlers of App *)
Module AppFacts.
Import JS ASSParser Spec FloatFacts OrderFacts.

Lemma eqb_key (a b : float) :
  is_nan a = false -> is_nan b = false ->
  (a =? b)%float = (orderKey (Prim2SF a) =? orderKey (Prim2SF b))%Z.
Proof.
  intros Na Nb. rewrite eqb_spec. unfold SFeqb.
  rewrite (SFcompare_key _ _ (Prim2SF_valid a) (Prim2SF_valid b)
             (not_nan _ Na) (not_nan _ Nb)).
  unfold Z.eqb.
  destruct (Z.compare_spec (orderKey (Prim2SF a)) (orderKey (Prim2SF b)))
    as [E | L | G].
  - rewrite E. destruct (orderKey (Prim2SF b)); [reflexivity | |];
      rewrite Pos.eqb_refl; reflexivity.
  - destruct (orderKey (Prim2SF a)), (orderKey (Prim2SF b)); try reflexivity;
      try lia; symmetry; apply Pos.eqb_neq; lia.
  - destruct (orderKey (Prim2SF a)), (orderKey (Prim2SF b)); try reflexivity;
      try lia; symmetry; apply Pos.eqb_neq; lia.
Qed.

(** [Math.min(x, y)] equals [x], as Numbers, when [x <= y]. *)
Lemma mathMin_left (x y : float) :
  (x <=? y)%float = true -> (mathMin x y =? x)%float = true.
Proof.
  intros H. destruct (leb_numbers _ _ H) as [Nx Ny].
  rewrite (leb_key x y Nx Ny) in H. apply Z.leb_le in H.
  unfold mathMin. rewrite Nx, Ny. cbn [orb].
  destruct (x <? y)%float eqn:Lxy.
  - rewrite (eqb_key x x Nx Nx). apply Z.eqb_refl.
  - destruct (y <? x)%float eqn:Lyx.
    + rewrite (ltb_key y x Ny Nx) in Lyx. apply Z.ltb_lt in Lyx. lia.
    + destruct (get_sign x).
      * rewrite (eqb_key x x Nx Nx). apply Z.eqb_refl.
      * rewrite (ltb_key x y Nx Ny) in Lxy. apply Z.ltb_ge in Lxy.
        rewrite (eqb_key y x Ny Nx). apply Z.eqb_eq. lia.
Qed.

(** [Math.max(x, y)] equals [y], as Numbers, when [x <= y]. *)
Lemma mathMax_right (x y : float) :
  (x <=? y)%float = true -> (mathMax x y =? y)%float = true.
Proof.
  intros H. destruct (leb_numbers _ _ H) as [Nx Ny].
  rewrite (leb_key x y Nx Ny) in H. apply Z.leb_le in H.
  unfold mathMax. rewrite Nx, Ny. cbn [orb].
  destruct (x <? y)%float eqn:Lxy.
  - rewrite (eqb_key y y Ny Ny). apply Z.eqb_refl.
  - destruct (y <? x)%float eqn:Lyx.
    + rewrite (ltb_key y x Ny Nx) in Lyx. apply Z.ltb_lt in Lyx. lia.
    + destruct (get_sign x).
      * rewrite (eqb_key y y Ny Ny). apply Z.eqb_refl.
      * rewrite (ltb_key x y Nx Ny) in Lxy. apply Z.ltb_ge in Lxy.
        rewrite (eqb_key x y Nx Ny). apply Z.eqb_eq. lia.
Qed.

Lemma eqb_trans (a b c : float) :
  (a =? b)%float = true -> (b =? c)%float = true -> (a =? c)%float = true.
Proof.
  intros Hab Hbc.
  assert (Na : is_nan a = false /\ is_nan b = false).
  { rewrite eqb_spec in Hab. unfold SFeqb in Hab.
    split; apply is_nan_false_spec; intros E; rewrite E in Hab;
      [| destruct (Prim2SF a)]; discriminate. }
  assert (Nc : is_nan c = false).
  { rewrite eqb_spec in Hbc. unfold SFeqb in Hbc.
    apply is_nan_false_spec; intros E; rewrite E in Hbc.
    destruct (Prim2SF b); discriminate. }
  destruct Na as [Na Nb].
  rewrite (eqb_key a b Na Nb) in Hab. rewrite (eqb_key b c Nb Nc) in Hbc.
  rewrite (eqb_key a c Na Nc). apply Z.eqb_eq in Hab, Hbc. apply Z.eqb_eq. lia.
Qed.

(** The handler keeps the parser and stores the report. *)
Lemma handle_parser (report : App.PlaybackStatus) (st : App.t) :
  App.assParser (App.handlePlaybackStatusUpdate report st) = App.assParser st /\
  App.status (App.handlePlaybackStatusUpdate report st) = report.
Proof.
  unfold App.handlePlaybackStatusUpdate, App.updateSubtitles. cbn [App.assParser
    App.status App.subtitles].
  destruct (App.isLoaded report); [| split; reflexivity].
  destruct (App.assParser st); [| split; reflexivity].
  destruct (App.positionMillis report) as [t |]; [| split; reflexivity].
  destruct (truthyNumber t); split; reflexivity.
Qed.

(** The subtitles after one report. *)
Lemma handle_subtitles (report : App.PlaybackStatus) (st : App.t)
    (parser : ASSParser.t) :
  App.assParser st = Some parser ->
  App.subtitles (App.handlePlaybackStatusUpdate report st) =
  match lastPosition [report] with
  | Some t => getActiveSubtitles parser t
  | None => App.subtitles st
  end.
Proof.
  intros Hp. unfold App.handlePlaybackStatusUpdate, App.updateSubtitles.
  cbn [App.assParser App.status App.subtitles lastPosition]. rewrite Hp.
  destruct (App.isLoaded report); cbn [andb]; [| reflexivity].
  destruct (App.positionMillis report) as [t |]; cbn [truthy]; [| reflexivity].
  destruct (truthyNumber t); reflexivity.
Qed.

Lemma handle_no_parser (report : App.PlaybackStatus) (st : App.t) :
  App.assParser st = None ->
  App.subtitles (App.handlePlaybackStatusUpdate report st) = App.subtitles st.
Proof.
  intros Hp. unfold App.handlePlaybackStatusUpdate, App.updateSubtitles.
  cbn [App.assParser App.status App.subtitles]. rewrite Hp.
  destruct (App.isLoaded report); reflexivity.
Qed.

Lemma afterReports_parser (reports : list App.PlaybackStatus) : forall st : App.t,
  App.assParser (afterReports reports st) = App.assParser st.
Proof.
  induction reports as [| r l IH]; intros st; [reflexivity |].
  unfold afterReports in *. cbn [fold_left]. rewrite IH.
  apply handle_parser.
Qed.

Lemma afterReports_subtitles (reports : list App.PlaybackStatus) :
  forall (st : App.t) (parser : ASSParser.t),
    App.assParser st = Some parser ->
    App.subtitles (afterReports reports st) =
    match lastPosition reports with
    | Some t => getActiveSubtitles parser t
    | None => App.subtitles st
    end.
Proof.
  induction reports as [| r l IH]; intros st parser Hp; [reflexivity |].
  unfold afterReports in *. cbn [fold_left lastPosition].
  rewrite (IH _ parser)
    by (rewrite (proj1 (handle_parser r st)); exact Hp).
  destruct (lastPosition l) as [t |]; [reflexivity |].
  rewrite (handle_subtitles r st parser Hp). cbn [lastPosition].
  reflexivity.
Qed.

Lemma afterReports_no_parser (reports : list App.PlaybackStatus) :
  forall st : App.t,
    App.assParser st = None ->
    App.subtitles (afterReports reports st) = App.subtitles st.
Proof.
  induction reports as [| r l IH]; intros st Hp; [reflexivity |].
  unfold afterReports in *. cbn [fold_left].
  rewrite IH by (rewrite (proj1 (handle_parser r st)); exact Hp).
  apply handle_no_parser, Hp.
Qed.

(** A text trims to nothing exactly when it is white space only. *)
Lemma trimEnd_empty (s : string) :
  trimEnd s = "" <-> allWhiteSpace s = true.
Proof.
  induction s as [| c r IH]; cbn [trimEnd allWhiteSpace]; [tauto |].
  destruct (trimEnd r) as [| c' r'] eqn:E.
  - destruct (isWhiteSpace c); cbn [andb].
    + split; [intros _; apply IH; reflexivity | reflexivity].
    + split; discriminate.
  - split; [discriminate |]. intros H. apply andb_prop in H. destruct H as [_ H].
    apply IH in H. discriminate.
Qed.

Lemma trimStart_white (s : string) :
  allWhiteSpace (trimStart s) = allWhiteSpace s.
Proof.
  induction s as [| c r IH]; [reflexivity |]. cbn [trimStart].
  destruct (isWhiteSpace c) eqn:E.
  - rewrite IH. cbn [allWhiteSpace]. rewrite E. reflexivity.
  - reflexivity.
Qed.

Lemma trim_empty (s : string) : trim s = "" <-> allWhiteSpace s = true.
Proof. unfold trim. rewrite trimEnd_empty, trimStart_white. reflexivity. Qed.

Lemma eqb_true_key (a b : float) :
  (a =? b)%float = true ->
  is_nan a = false /\ is_nan b = false /\
  orderKey (Prim2SF a) = orderKey (Prim2SF b).
Proof.
  intros H.
  assert (N : is_nan a = false /\ is_nan b = false).
  { rewrite eqb_spec in H. unfold SFeqb in H.
    split; apply is_nan_false_spec; intros E; rewrite E in H;
      [| destruct (Prim2SF a)]; discriminate. }
  destruct N as [Na Nb]. rewrite (eqb_key a b Na Nb) in H.
  apply Z.eqb_eq in H. auto.
Qed.

(** Numbers that [Math.min] and [Math.max] are given come out as a Number. *)
Lemma mathMin_is_number (x y : float) :
  is_nan x = false -> is_nan y = false -> is_nan (mathMin x y) = false.
Proof.
  intros Nx Ny. destruct (mathMin_le x y Nx Ny) as [H _].
  exact (proj1 (leb_numbers _ _ H)).
Qed.

Lemma mathMax_is_number (x y : float) :
  is_nan x = false -> is_nan y = false -> is_nan (mathMax x y) = false.
Proof.
  intros Nx Ny. destruct (mathMax_ge x y Nx Ny) as (H & _ & _).
  exact (proj2 (leb_numbers _ _ H)).
Qed.

(** [Math.max(0, Math.min(x, d))] for Numbers with [0 <= d]. *)
Lemma clamp_bounds (x d : float) :
  is_nan x = false -> (0 <=? d)%float = true ->
  (0 <=? mathMax 0 (mathMin x d))%float = true /\
  (mathMax 0 (mathMin x d) <=? d)%float = true.
Proof.
  intros Nx Hd. destruct (leb_numbers _ _ Hd) as [N0 Nd].
  pose proof (mathMin_is_number x d Nx Nd) as Ny.
  destruct (mathMax_ge 0 (mathMin x d) N0 Ny) as (H0 & _ & [E | E]).
  - split; [exact H0 |]. rewrite E. exact Hd.
  - split; [exact H0 |]. rewrite E. exact (proj2 (mathMin_le x d Nx Nd)).
Qed.

Lemma clamp_inside (x d : float) :
  (0 <=? x)%float = true -> (x <=? d)%float = true ->
  (mathMax 0 (mathMin x d) =? x)%float = true.
Proof.
  intros H0 Hd. pose proof (mathMin_left x d Hd) as Emin.
  destruct (eqb_true_key _ _ Emin) as (Ny & Nx & K).
  destruct (leb_numbers _ _ H0) as [N0 _].
  apply eqb_trans with (mathMin x d); [| exact Emin].
  apply mathMax_right. rewrite (leb_key _ _ N0 Ny), K, <- (leb_key _ _ N0 Nx).
  exact H0.
Qed.

Lemma clamp_below (x d : float) :
  (x <? 0)%float = true -> (0 <=? d)%float = true ->
  mathMax 0 (mathMin x d) = 0%float.
Proof.
  intros Hx Hd. destruct (leb_numbers _ _ Hd) as [N0 Nd].
  assert (Nx : is_nan x = false).
  { rewrite ltb_spec in Hx. unfold SFltb in Hx. apply is_nan_false_spec.
    intros E. rewrite E in Hx. discriminate. }
  pose proof (mathMin_is_number x d Nx Nd) as Ny.
  destruct (mathMin_le x d Nx Nd) as [Hyx _].
  rewrite (leb_key _ _ Ny Nx) in Hyx. apply Z.leb_le in Hyx.
  rewrite (ltb_key _ _ Nx N0) in Hx. apply Z.ltb_lt in Hx.
  unfold mathMax. rewrite N0, Ny. cbn [orb].
  rewrite (ltb_key _ _ N0 Ny), (ltb_key _ _ Ny N0).
  replace (orderKey (Prim2SF 0) <? orderKey (Prim2SF (mathMin x d)))%Z
    with false by (symmetry; apply Z.ltb_ge; lia).
  replace (orderKey (Prim2SF (mathMin x d)) <? orderKey (Prim2SF 0))%Z
    with true by (symmetry; apply Z.ltb_lt; lia).
  reflexivity.
Qed.

Lemma clamp_above (x d : float) :
  (d <? x)%float = true -> (0 <=? d)%float = true ->
  (mathMax 0 (mathMin x d) =? d)%float = true.
Proof.
  intros Hx Hd. destruct (leb_numbers _ _ Hd) as [N0 Nd].
  assert (Nx : is_nan x = false).
  { rewrite ltb_spec in Hx. unfold SFltb in Hx. apply is_nan_false_spec.
    intros E. rewrite E in Hx. destruct (Prim2SF d); discriminate. }
  assert (E : mathMin x d = d).
  { unfold mathMin. rewrite Nx, Nd. cbn [orb]. rewrite Hx.
    rewrite (ltb_key _ _ Nx Nd). rewrite (ltb_key _ _ Nd Nx) in Hx.
    apply Z.ltb_lt in Hx.
    replace (orderKey (Prim2SF x) <? orderKey (Prim2SF d))%Z
      with false by (symmetry; apply Z.ltb_ge; lia).
    reflexivity. }
  rewrite E. apply mathMax_right, Hd.
Qed.

End AppFacts.

(** ** Facts on the query *)
Module QueryFacts.
Import JS ASSParser Spec FloatFacts SortFacts OrderFacts.

Lemma Forall_filter {A : Type} (P : A -> Prop) (f : A -> bool) (l : list A) :
  Forall P l -> Forall P (List.filter f l).
Proof.
  induction 1 as [| x r Hx Hr IH]; cbn [List.filter]; [constructor |].
  destruct (f x); [constructor; assumption | exact IH].
Qed.

(** A filter keeps a list sorted. *)
Lemma StronglySorted_filter {A : Type} (R : A -> A -> Prop) (f : A -> bool)
    (l : list A) :
  StronglySorted R l -> StronglySorted R (List.filter f l).
Proof.
  induction 1 as [| x r Hr IH Hx]; cbn [List.filter]; [constructor |].
  destruct (f x); [| exact IH].
  constructor; [exact IH | apply Forall_filter, Hx].
Qed.

(** The events of a parsed track with numeric start times are sorted. *)
Lemma events_strongly_sorted (assContent : string) :
  Forall numericStart (events (parseASS assContent)) ->
  StronglySorted startLe (events (parseASS assContent)).
Proof.
  intros Hn. apply Sorted_StronglySorted.
  - intros a b c Hab Hbc. exact (leb_trans _ _ _ Hab Hbc).
  - revert Hn. rewrite parseASS_events. intros Hn. apply sort_sorted.
    eapply Permutation_Forall; [apply sort_perm | exact Hn].
Qed.

Lemma active_In (this : ASSParser.t) (t : float) (event : Event.t) :
  In event (getActiveSubtitles this t) <->
  In event (events this) /\
  (Event.start event <=? t)%float = true /\
  (t <=? Event.end_ event)%float = true.
Proof.
  unfold getActiveSubtitles. rewrite filter_In, andb_true_iff. reflexivity.
Qed.

End QueryFacts.

(** ** Facts on the loop of the parser *)
Module ParserFacts.
Import JS ASSParser Spec SortFacts.

(** One turn of the loop, by the section the line opens. *)
Lemma parseLine_cases (sec : option string) (this : ASSParser.t) (raw : string) :
  parseLine (sec, this) raw =
  match sectionOf (trim raw) with
  | Some name => (Some name, this)
  | None =>
      if sectionIs sec "v4+ styles" && startsWith (trim raw) "Style:"
      then (sec, parseStyle (trim raw) this)
      else if sectionIs sec "events" && startsWith (trim raw) "Dialogue:"
      then (sec, parseDialogue (trim raw) this)
      else (sec, this)
  end.
Proof.
  unfold parseLine, sectionOf.
  destruct (startsWith (trim raw) "[" && endsWith (trim raw) "]"); reflexivity.
Qed.

Lemma sectionIs_true (sec : option string) (name : string) :
  sectionIs sec name = true <-> sec = Some name.
Proof.
  unfold sectionIs, strictEq. destruct sec as [s' |].
  - rewrite String.eqb_eq. split; [intros ->; reflexivity | intros [= ->]; reflexivity].
  - split; discriminate.
Qed.

(** A line that starts with [Dialogue:] or [Style:] is no header. *)
Lemma dialogue_not_header (line : string) :
  startsWith line "Dialogue:" = true -> sectionOf line = None.
Proof.
  unfold sectionOf. destruct line as [| c r]; [discriminate |].
  cbn [startsWith]. destruct (Ascii.eqb "D" c) eqn:E; [| discriminate].
  apply Ascii.eqb_eq in E. subst c. reflexivity.
Qed.

Lemma style_not_header (line : string) :
  startsWith line "Style:" = true -> sectionOf line = None.
Proof.
  unfold sectionOf. destruct line as [| c r]; [discriminate |].
  cbn [startsWith]. destruct (Ascii.eqb "S" c) eqn:E; [| discriminate].
  apply Ascii.eqb_eq in E. subst c. reflexivity.
Qed.

(** What a turn does to the events and to the styles. *)
Lemma parseStyle_events (line : string) (this : ASSParser.t) :
  events (parseStyle line this) = events this.
Proof. unfold parseStyle. destruct (styleOfLine line); reflexivity. Qed.

Lemma parseDialogue_styles (line : string) (this : ASSParser.t) :
  styles (parseDialogue line this) = styles this.
Proof. unfold parseDialogue. destruct (eventOfLine line); reflexivity. Qed.

Lemma parseDialogue_events (line : string) (this : ASSParser.t) :
  events (parseDialogue line this) =
  (events this ++ match eventOfLine line with Some e => [e] | None => [] end)%list.
Proof.
  unfold parseDialogue. destruct (eventOfLine line); cbn [events];
    [reflexivity | rewrite app_nil_r; reflexivity].
Qed.

Lemma parseLine_fromContent (lines : list string) (sec : option string)
    (this : ASSParser.t) (raw : string) :
  In (trim raw) lines ->
  fromContent lines this -> fromContent lines (snd (parseLine (sec, this) raw)).
Proof.
  intros Hraw [He Hs]. rewrite parseLine_cases.
  destruct (sectionOf (trim raw)); cbn [snd]; [split; assumption |].
  destruct (sectionIs sec "v4+ styles" && startsWith (trim raw) "Style:") eqn:Bs.
  - apply andb_prop in Bs. destruct Bs as [_ Bs]. cbn [snd]. split.
    + rewrite parseStyle_events. exact He.
    + intros k style Hk. unfold parseStyle in Hk.
      destruct (styleOfLine (trim raw)) as [sty |] eqn:E; [| exact (Hs k style Hk)].
      cbn [styles] in Hk. apply lookup_insert_Some in Hk.
      destruct Hk as [[<- <-] | [_ Hold]]; [| exact (Hs k style Hold)].
      split; [reflexivity |]. exists (trim raw). auto.
  - destruct (sectionIs sec "events" && startsWith (trim raw) "Dialogue:") eqn:Bd;
      cbn [snd]; [| split; assumption].
    apply andb_prop in Bd. destruct Bd as [_ Bd]. split.
    + intros event Hin. rewrite parseDialogue_events in Hin.
      apply in_app_or in Hin. destruct Hin as [Hin | Hin]; [exact (He event Hin) |].
      destruct (eventOfLine (trim raw)) as [e |] eqn:E; [| destruct Hin].
      destruct Hin as [<- | []]. exists (trim raw). auto.
    + rewrite parseDialogue_styles. exact Hs.
Qed.

Lemma fold_fromContent (lines raws : list string) :
  forall st : option string * ASSParser.t,
    (forall raw, In raw raws -> In (trim raw) lines) ->
    fromContent lines (snd st) ->
    fromContent lines (snd (fold_left parseLine raws st)).
Proof.
  induction raws as [| raw r IH]; intros [sec this] Hraws Hinv; [exact Hinv |].
  cbn [fold_left]. apply IH.
  - intros raw' Hin. apply Hraws. right. exact Hin.
  - destruct (parseLine (sec, this) raw) as [sec' this'] eqn:E.
    pose proof (parseLine_fromContent lines sec this raw
                  (Hraws raw (or_introl eq_refl)) Hinv) as H.
    rewrite E in H. exact H.
Qed.

(** The parsed track holds only what lines of the content give. *)
Lemma parseASS_fromContent (assContent : string) :
  fromContent (linesOf assContent) (parseASS assContent).
Proof.
  pose proof (fold_fromContent (linesOf assContent) (split LF assContent)
                (None, new)) as H.
  assert (H0 : fromContent (linesOf assContent) (snd (None (A := string), new))).
  { split; [intros event [] |]. intros k style Hk. cbn [snd new styles] in Hk.
    rewrite lookup_empty in Hk. discriminate. }
  specialize (H (fun raw Hin => in_map trim _ _ Hin) H0).
  unfold parseASS.
  destruct (fold_left parseLine (split LF assContent) (None, new)) as [sec this].
  cbn [snd] in H. destruct H as [He Hs]. split; cbn [events styles]; [| exact Hs].
  intros event Hin. apply He.
  eapply Permutation_in; [apply sort_perm | exact Hin].
Qed.

(** Without a header that opens them, no events and no styles. *)
Lemma fold_no_events (raws : list string) :
  forall (sec : option string) (this : ASSParser.t),
    Forall (fun raw => sectionOf (trim raw) <> Some "events") raws ->
    sec <> Some "events" -> events this = [] ->
    events (snd (fold_left parseLine raws (sec, this))) = [].
Proof.
  induction raws as [| raw r IH]; intros sec this Hr Hsec He; [exact He |].
  inversion Hr as [| ? ? Hraw Hrest]; subst. cbn [fold_left].
  rewrite parseLine_cases.
  destruct (sectionOf (trim raw)) as [name |] eqn:S.
  - apply IH; [exact Hrest | exact Hraw | exact He].
  - destruct (sectionIs sec "v4+ styles" && startsWith (trim raw) "Style:").
    + apply IH; [exact Hrest | exact Hsec |]. rewrite parseStyle_events. exact He.
    + destruct (sectionIs sec "events") eqn:B.
      * apply sectionIs_true in B. contradiction.
      * cbn [andb]. apply IH; assumption.
Qed.

Lemma fold_no_styles (raws : list string) :
  forall (sec : option string) (this : ASSParser.t),
    Forall (fun raw => sectionOf (trim raw) <> Some "v4+ styles") raws ->
    sec <> Some "v4+ styles" -> styles this = ∅ ->
    styles (snd (fold_left parseLine raws (sec, this))) = ∅.
Proof.
  induction raws as [| raw r IH]; intros sec this Hr Hsec He; [exact He |].
  inversion Hr as [| ? ? Hraw Hrest]; subst. cbn [fold_left].
  rewrite parseLine_cases.
  destruct (sectionOf (trim raw)) as [name |] eqn:S.
  - apply IH; [exact Hrest | exact Hraw | exact He].
  - destruct (sectionIs sec "v4+ styles") eqn:B.
    + apply sectionIs_true in B. contradiction.
    + cbn [andb].
      destruct (sectionIs sec "events" && startsWith (trim raw) "Dialogue:").
      * apply IH; [exact Hrest | exact Hsec |].
        rewrite parseDialogue_styles. exact He.
      * apply IH; assumption.
Qed.

(** Lines that are no headers leave the section as it is. *)
Lemma fold_section (raws : list string) :
  forall (sec : option string) (this : ASSParser.t),
    Forall (fun raw => sectionOf (trim raw) = None) raws ->
    fst (fold_left parseLine raws (sec, this)) = sec.
Proof.
  induction raws as [| raw r IH]; intros sec this Hr; [reflexivity |].
  inversion Hr as [| ? ? Hraw Hrest]; subst. cbn [fold_left].
  rewrite parseLine_cases, Hraw.
  destruct (sectionIs sec "v4+ styles" && startsWith (trim raw) "Style:");
    [apply IH, Hrest |].
  destruct (sectionIs sec "events" && startsWith (trim raw) "Dialogue:");
    apply IH, Hrest.
Qed.

(** The loop never removes an event. *)
Lemma fold_keeps_event (raws : list string) (event : Event.t) :
  forall st : option string * ASSParser.t,
    In event (events (snd st)) ->
    In event (events (snd (fold_left parseLine raws st))).
Proof.
  induction raws as [| raw r IH]; intros [sec this] Hin; [exact Hin |].
  cbn [fold_left]. apply IH. rewrite parseLine_cases.
  destruct (sectionOf (trim raw)); [exact Hin |].
  destruct (sectionIs sec "v4+ styles" && startsWith (trim raw) "Style:").
  - cbn [snd] in *. rewrite parseStyle_events. exact Hin.
  - destruct (sectionIs sec "events" && startsWith (trim raw) "Dialogue:");
      [| exact Hin].
    cbn [snd] in *. rewrite parseDialogue_events. apply in_or_app. left. exact Hin.
Qed.

(** The loop keeps a style as long as no later style line has its name. *)
Lemma fold_keeps_style (raws : list string) (style : Style.t) :
  forall st : option string * ASSParser.t,
    Forall (fun raw => forall other : Style.t,
              startsWith (trim raw) "Style:" = true ->
              styleOfLine (trim raw) = Some other ->
              Style.name other <> Style.name style) raws ->
    styles (snd st) !! Style.name style = Some style ->
    styles (snd (fold_left parseLine raws st)) !! Style.name style = Some style.
Proof.
  induction raws as [| raw r IH]; intros [sec this] Hr Hk; [exact Hk |].
  inversion Hr as [| ? ? Hraw Hrest]; subst. cbn [fold_left].
  apply IH; [exact Hrest |]. rewrite parseLine_cases.
  destruct (sectionOf (trim raw)); [exact Hk |].
  destruct (sectionIs sec "v4+ styles" && startsWith (trim raw) "Style:") eqn:B.
  - apply andb_prop in B. destruct B as [_ B]. cbn [snd] in *.
    unfold parseStyle. destruct (styleOfLine (trim raw)) as [other |] eqn:E;
      [| exact Hk].
    cbn [styles]. rewrite lookup_insert_ne; [exact Hk |].
    exact (Hraw other B eq_refl).
  - destruct (sectionIs sec "events" && startsWith (trim raw) "Dialogue:");
      [| exact Hk].
    cbn [snd] in *. rewrite parseDialogue_styles. exact Hk.
Qed.

(** The state of the loop after a header and lines that are no headers. *)
Lemma fold_under_header (pre mid : list string) (h name : string)
    (st : option string * ASSParser.t) :
  sectionOf (trim h) = Some name ->
  Forall (fun raw => sectionOf (trim raw) = None) mid ->
  fst (fold_left parseLine (pre ++ h :: mid) st) = Some name.
Proof.
  intros Hh Hmid. rewrite fold_left_app. cbn [fold_left].
  destruct (fold_left parseLine pre st) as [sec this].
  rewrite parseLine_cases, Hh. apply fold_section, Hmid.
Qed.

End ParserFacts.

(** ** Further facts on the markup normalizer *)
Module NormalFacts.
Import JS SubtitleRenderer Spec MarkupFacts.

(** A text without a tag is left as it is by the removal of tags. *)
Lemma removeTags_tagFree_id (s : string) :
  tagFree s = true -> removeTags false s = s.
Proof.
  induction s as [| c r IH]; [reflexivity |]. cbn [tagFree removeTags].
  intros H. apply andb_prop in H. destruct H as [Hc Hr].
  apply negb_true_iff in Hc. rewrite Hc, (IH Hr). reflexivity.
Qed.

(** What is left after the removal of tags has no tag, and has a closing
    brace only if the text had one. *)
Lemma TagsRemoved_tagFree (s out : string) :
  TagsRemoved s out ->
  tagFree out = true /\ (hasClose out = true -> hasClose s = true).
Proof.
  induction 1 as [| body rest out Hb Hrest [IHt IHc] | c rest out Hc Hrest [IHt IHc]].
  - split; [reflexivity | discriminate].
  - split; [exact IHt |]. intros _. cbn [hasClose].
    rewrite hasClose_app. apply orb_true_r.
  - split.
    + cbn [tagFree]. rewrite IHt, andb_true_r. apply negb_true_iff.
      destruct (Ascii.eqb c "{") eqn:Ec; [| reflexivity]. cbn [andb] in Hc |- *.
      destruct (hasClose out) eqn:Ho; [| reflexivity].
      rewrite (IHc eq_refl) in Hc. discriminate.
    + cbn [hasClose]. intros H. apply orb_prop in H. destruct H as [H | H].
      * rewrite H. reflexivity.
      * rewrite (IHc H). apply orb_true_r.
Qed.

Lemma removeTags_tagFree (s : string) : tagFree (removeTags false s) = true.
Proof. exact (proj1 (TagsRemoved_tagFree _ _ (removeTags_spec s))). Qed.

(** A replacement of two code units that are no closing brace by a line break
    keeps the closing braces. *)
Lemma hasClose_replaceAll_bounded (a b : ascii) (n : nat) : forall s : string,
  Ascii.eqb a "}" = false -> Ascii.eqb b "}" = false ->
  String.length s <= n ->
  hasClose (replaceAll a b newline s) = hasClose s.
Proof.
  induction n as [| n IH]; intros s Ha Hb Hlen.
  - destruct s; [reflexivity | cbn in Hlen; lia].
  - destruct s as [| x [| y r]]; try reflexivity.
    cbn [String.length] in Hlen. rewrite replaceAll_step.
    destruct (Ascii.eqb x a && Ascii.eqb y b) eqn:E.
    + apply andb_prop in E. destruct E as [Ex Ey].
      apply Ascii.eqb_eq in Ex, Ey. subst x y.
      cbn [newline append hasClose]. rewrite Ha, Hb. cbn [orb].
      rewrite IH by (assumption || lia). reflexivity.
    + cbn [hasClose]. rewrite (IH (String y r)) by (assumption || (cbn; lia)).
      reflexivity.
Qed.

(** Such a replacement brings no tag. *)
Lemma tagFree_replaceAll_bounded (a b : ascii) (n : nat) : forall s : string,
  Ascii.eqb a "}" = false -> Ascii.eqb b "}" = false ->
  String.length s <= n ->
  tagFree s = true -> tagFree (replaceAll a b newline s) = true.
Proof.
  induction n as [| n IH]; intros s Ha Hb Hlen Ht.
  - destruct s; [reflexivity | cbn in Hlen; lia].
  - destruct s as [| x [| y r]]; try exact Ht.
    cbn [String.length] in Hlen. rewrite replaceAll_step.
    destruct (Ascii.eqb x a && Ascii.eqb y b) eqn:E.
    + cbn [newline append tagFree]. cbn [Ascii.eqb Bool.eqb andb negb].
      apply IH; try assumption; [lia |].
      cbn [tagFree] in Ht. apply andb_prop in Ht. destruct Ht as [_ Ht].
      apply andb_prop in Ht. exact (proj2 Ht).
    + change (tagFree (String x (String y r)))
        with (negb (Ascii.eqb x "{" && hasClose (String y r))
              && tagFree (String y r)) in Ht.
      apply andb_prop in Ht. destruct Ht as [Hx Ht].
      cbn [tagFree].
      rewrite (hasClose_replaceAll_bounded a b n (String y r))
        by (assumption || (cbn; lia)).
      rewrite Hx. cbn [andb]. apply IH; try assumption. cbn; lia.
Qed.

(** Without an occurrence of the two code units, a replacement changes
    nothing. *)
Lemma replaceAll_id_bounded (a b : ascii) (rep : string) (n : nat) :
  forall s : string,
    String.length s <= n -> occurs a b s = false -> replaceAll a b rep s = s.
Proof.
  induction n as [| n IH]; intros s Hlen Ho.
  - destruct s; [reflexivity | cbn in Hlen; lia].
  - destruct s as [| x [| y r]]; try reflexivity.
    cbn [String.length] in Hlen. rewrite replaceAll_step.
    cbn [occurs] in Ho. apply orb_false_iff in Ho. destruct Ho as [E Ho].
    rewrite E. rewrite (IH (String y r)) by (assumption || (cbn; lia)).
    reflexivity.
Qed.

(** The removal of tags and the replacements never make a text longer. *)
Lemma removeTags_length (s : string) : forall inTag : bool,
  String.length (removeTags inTag s) <= String.length s.
Proof.
  induction s as [| c r IH]; intros inTag; [destruct inTag; cbn; lia |].
  cbn [removeTags String.length]. destruct inTag.
  - specialize (IH (negb (Ascii.eqb c "}"))). lia.
  - destruct (Ascii.eqb c "{" && hasClose r).
    + specialize (IH true). lia.
    + cbn [String.length]. specialize (IH false). lia.
Qed.

Lemma replaceAll_length_bounded (a b : ascii) (n : nat) : forall s : string,
  String.length s <= n ->
  String.length (replaceAll a b newline s) <= String.length s.
Proof.
  induction n as [| n IH]; intros s Hlen.
  - destruct s; [cbn; lia | cbn in Hlen; lia].
  - destruct s as [| x [| y r]]; try (cbn; lia).
    cbn [String.length] in Hlen. rewrite replaceAll_step.
    destruct (Ascii.eqb x a && Ascii.eqb y b).
    + cbn [newline append String.length].
      specialize (IH r ltac:(lia)). lia.
    + cbn [String.length].
      specialize (IH (String y r) ltac:(cbn; lia)). cbn [String.length] in IH.
      lia.
Qed.

End NormalFacts.

(** ** Facts on text at the ends of a string *)
Module EndsFacts.
Import JS Spec MarkupFacts.

Lemma dropUnits_app (u v : string) : dropUnits (String.length u) (u ++ v) = v.
Proof. induction u as [| c r IH]; [destruct v; reflexivity | exact IH]. Qed.

(** A text ends with what is appended to it. *)
Lemma endsWith_app (u p : string) : endsWith (u ++ p) p = true.
Proof.
  unfold endsWith. rewrite length_append.
  replace (String.length u + String.length p - String.length p)
    with (String.length u) by lia.
  rewrite dropUnits_app, String.eqb_refl, andb_true_r.
  apply Nat.leb_le. lia.
Qed.

Lemma substring_prefix (t u : string) :
  substring 0 (String.length t) (t ++ u) = t.
Proof.
  induction t as [| c r IH]; [destruct u; reflexivity |].
  cbn [String.length append substring]. rewrite IH. reflexivity.
Qed.

Lemma substring_none (s : string) : substring 0 0 s = "".
Proof. destruct s; reflexivity. Qed.

(** The text between the two sentinels of a colour field. *)
Lemma slice_wrapped (t : string) :
  slice (String "&" (String "H" (t ++ "&"))) 2 (-1) = t.
Proof.
  unfold slice, relIndex. cbn [String.length]. rewrite length_append.
  cbn [String.length].
  replace (2 <? 0)%Z with false by reflexivity.
  replace (-1 <? 0)%Z with true by reflexivity.
  replace (Nat.min (Z.to_nat 2) (S (S (String.length t + 1)))) with 2 by lia.
  replace (Z.to_nat (Z.max 0 (Z.of_nat (S (S (String.length t + 1))) + -1)) - 2)
    with (String.length t) by lia.
  cbn [substring]. apply substring_prefix.
Qed.

End EndsFacts.

(** ** Integers in binary64

    Sums and products of integers that stay below [2^53] are computed without
    rounding, and the scanners read whole numbers as those integers. *)
Module ExactFacts.
Import JS ASSParser Spec FloatFacts OrderFacts StringFacts.
Local Open Scope Z_scope.

(** The digits of a mantissa shifted to the left. *)
Lemma digits2_shift (m : positive) (k : positive) :
  digits2_pos (shift_pos k m) = (digits2_pos m + k)%positive.
Proof.
  unfold shift_pos. revert m. induction k as [k IH | k IH |]; intros m; simpl Pos.iter.
  - cbn [digits2_pos]. rewrite !IH. lia.
  - rewrite !IH. lia.
  - cbn [digits2_pos]. lia.
Qed.

(** Shifting out bits that are zero is exact. *)
Lemma shr_1_even (q : positive) :
  shr_1 (Build_shr_record (Zpos (xO q)) false false) =
  Build_shr_record (Zpos q) false false.
Proof. reflexivity. Qed.

Lemma iter_shr_1_exact (k : positive) : forall q : positive,
  iter_pos shr_1 k (Build_shr_record (Zpos (shift_pos k q)) false false) =
  Build_shr_record (Zpos q) false false.
Proof.
  unfold shift_pos. induction k as [k IH | k IH |]; intros q;
    simpl Pos.iter; cbn [iter_pos].
  - rewrite shr_1_even. rewrite IH. apply IH.
  - rewrite IH. apply IH.
  - reflexivity.
Qed.

Lemma shift_pos_Z (k m : positive) : Zpos (shift_pos k m) = Zpos m * 2 ^ Zpos k.
Proof.
  rewrite shift_pos_correct, Zpower_pos_nat, Zpower_nat_Z, positive_nat_Z. lia.
Qed.

Lemma canonical_fexp (m0 : positive) (e0 : Z) :
  bounded prec emax m0 e0 = true ->
  fexp prec emax (Zpos (digits2_pos m0) + e0) = e0 /\ (e0 <=? emax - prec) = true.
Proof.
  unfold bounded, canonical_mantissa. intros H. apply andb_prop in H.
  destruct H as [H1 H2]. apply Z.eqb_eq in H1. split; assumption.
Qed.

(** Rounding a mantissa that only has zero bits to lose gives the canonical
    float of the same value. *)
Lemma round_aux_exact (s : bool) (m m0 : positive) (e e0 : Z) :
  bounded prec emax m0 e0 = true ->
  e <= e0 -> Zpos m = Zpos m0 * 2 ^ (e0 - e) ->
  binary_round_aux prec emax s (Zpos m) e loc_Exact = S754_finite s m0 e0.
Proof.
  intros B Hle Hm. destruct (canonical_fexp m0 e0 B) as [Hf Hmax].
  assert (Hlast : forall l, shr_fexp prec emax (Zpos m0) e0 l
                            = (shr_record_of_loc (Zpos m0) l, e0)).
  { intros l. unfold shr_fexp. cbn [Zdigits2]. rewrite Hf, Z.sub_diag.
    reflexivity. }
  unfold binary_round_aux.
  destruct (Z.eq_dec e e0) as [-> | Hne].
  - rewrite Z.sub_diag, Z.pow_0_r, Z.mul_1_r in Hm. injection Hm as ->.
    rewrite Hlast. cbn [shr_record_of_loc shr_m loc_of_shr_record round_nearest_even].
    rewrite Hlast. cbn [shr_record_of_loc shr_m]. rewrite Hmax. reflexivity.
  - destruct (e0 - e) as [| k | k] eqn:Ek; try lia.
    rewrite <- shift_pos_Z in Hm. injection Hm as ->.
    unfold shr_fexp at 1. cbn [Zdigits2]. rewrite digits2_shift.
    replace (Zpos (digits2_pos m0 + k) + e) with (Zpos (digits2_pos m0) + e0) by lia.
    rewrite Hf, Ek. cbn [shr shr_record_of_loc]. rewrite iter_shr_1_exact.
    cbn [shr_m loc_of_shr_record round_nearest_even].
    replace (e + Zpos k) with e0 by lia.
    rewrite Hlast. cbn [shr_record_of_loc shr_m]. rewrite Hmax. reflexivity.
Qed.

Lemma binary_round_exact (s : bool) (m m0 : positive) (e e0 el : Z) :
  bounded prec emax m0 e0 = true ->
  el <= e -> el <= e0 ->
  Zpos m * 2 ^ (e - el) = Zpos m0 * 2 ^ (e0 - el) ->
  binary_round prec emax s m e = S754_finite s m0 e0.
Proof.
  intros B He He0 Hv. destruct (canonical_fexp m0 e0 B) as [Hf Hmax].
  unfold binary_round.
  destruct (Z_le_gt_dec e e0) as [Hle | Hgt].
  - assert (Hm : Zpos m = Zpos m0 * 2 ^ (e0 - e)).
    { replace (e0 - el) with ((e0 - e) + (e - el)) in Hv by lia.
      rewrite Z.pow_add_r in Hv by lia.
      assert (Hp : 0 < 2 ^ (e - el)) by (apply Z.pow_pos_nonneg; lia).
      nia. }
    assert (Hd : Zpos (digits2_pos m) + e = Zpos (digits2_pos m0) + e0).
    { destruct (Z.eq_dec e e0) as [-> | Hne].
      - rewrite Z.sub_diag, Z.pow_0_r, Z.mul_1_r in Hm. injection Hm as ->.
        reflexivity.
      - destruct (e0 - e) as [| k | k] eqn:Ek; try lia.
        rewrite <- shift_pos_Z in Hm. injection Hm as ->.
        rewrite digits2_shift. lia. }
    rewrite Hd, Hf. unfold shl_align.
    destruct (e0 - e) as [| k | k] eqn:Ek; try lia;
      apply round_aux_exact; try assumption; rewrite ?Ek; lia.
  - assert (Hm : Zpos m0 = Zpos m * 2 ^ (e - e0)).
    { replace (e - el) with ((e - e0) + (e0 - el)) in Hv by lia.
      rewrite Z.pow_add_r in Hv by lia.
      assert (Hp : 0 < 2 ^ (e0 - el)) by (apply Z.pow_pos_nonneg; lia).
      nia. }
    destruct (e - e0) as [| k | k] eqn:Ek; try lia.
    rewrite <- shift_pos_Z in Hm. injection Hm as Hm.
    assert (Hd : Zpos (digits2_pos m) + e = Zpos (digits2_pos m0) + e0)
      by (rewrite Hm, digits2_shift; lia).
    rewrite Hd, Hf. unfold shl_align.
    replace (e0 - e) with (Zneg k) by lia.
    change (Pos.iter xO m k) with (shift_pos k m). rewrite <- Hm.
    apply round_aux_exact; try assumption; [lia |].
    rewrite Z.sub_diag, Z.pow_0_r. lia.
Qed.

Lemma digits2_le_53 (z : positive) : Zpos z < 2 ^ 53 -> Zpos (digits2_pos z) <= 53.
Proof.
  intros H. pose proof (digits2_pos_bounds z) as [Hlo _].
  destruct (Z_le_gt_dec (Zpos (digits2_pos z)) 53) as [L | G]; [exact L |].
  assert (2 ^ 53 <= 2 ^ (Zpos (digits2_pos z) - 1)) by (apply Z.pow_le_mono_r; lia).
  lia.
Qed.

Lemma digits2_mono (a b : positive) :
  (a <= b)%positive -> Zpos (digits2_pos a) <= Zpos (digits2_pos b).
Proof.
  intros H. pose proof (digits2_pos_bounds a) as [Ha _].
  pose proof (digits2_pos_bounds b) as [_ Hb].
  destruct (Z_le_gt_dec (Zpos (digits2_pos a)) (Zpos (digits2_pos b))) as [L | G];
    [exact L |].
  assert (2 ^ Zpos (digits2_pos b) <= 2 ^ (Zpos (digits2_pos a) - 1))
    by (apply Z.pow_le_mono_r; lia).
  lia.
Qed.

Lemma int_canonical (z : positive) :
  Zpos z < 2 ^ 53 ->
  bounded prec emax (intMantissa z) (intExponent z) = true /\
  intExponent z = Zpos (digits2_pos z) - 53 /\
  Zpos (intMantissa z) = Zpos z * 2 ^ (- intExponent z).
Proof.
  intros H. pose proof (digits2_le_53 z H) as Hd.
  unfold intMantissa, intExponent. rewrite Z.min_r by lia.
  destruct (53 - Zpos (digits2_pos z)) as [| j | j] eqn:Ej; try lia.
  - split; [| split; [reflexivity |]].
    + unfold bounded, canonical_mantissa. rewrite fexp64.
      apply andb_true_intro. split; [apply Z.eqb_eq | apply Z.leb_le]; unfold emax, prec; lia.
    + replace (- (Zpos (digits2_pos z) - 53)) with 0 by lia. cbn. lia.
  - split; [| split; [reflexivity |]].
    + unfold bounded, canonical_mantissa. rewrite fexp64, digits2_shift.
      apply andb_true_intro. split; [apply Z.eqb_eq | apply Z.leb_le]; unfold emax, prec; lia.
    + rewrite shift_pos_Z. replace (- (Zpos (digits2_pos z) - 53)) with (Zpos j) by lia.
      reflexivity.
Qed.

Lemma Prim2SF_ofInteger (z : positive) :
  Zpos z < 2 ^ 53 ->
  Prim2SF (ofInteger (Zpos z)) = S754_finite false (intMantissa z) (intExponent z).
Proof.
  intros H. destruct (int_canonical z H) as (B & He & Hm).
  unfold ofInteger, ofBinary. cbn [binary_normalize].
  rewrite (binary_round_exact false z (intMantissa z) 0 (intExponent z)
             (intExponent z) B); try lia.
  - apply Prim2SF_SF2Prim. exact B.
  - pose proof (digits2_le_53 z H). lia.
  - rewrite Hm, Z.sub_diag, Z.pow_0_r. rewrite Z.sub_0_l. lia.
Qed.

(** Products and sums of integers that stay below 2^53 are exact. *)
Lemma mul_int (A B : Z) :
  0 <= A < 2 ^ 53 -> 0 <= B < 2 ^ 53 -> A * B < 2 ^ 53 ->
  (ofInteger A * ofInteger B)%float = ofInteger (A * B).
Proof.
  intros [HA La] [HB Lb] Hlt. apply Prim2SF_inj. rewrite mul_spec.
  destruct A as [| a | a]; [| | lia].
  - destruct B as [| b | b]; [reflexivity | | lia].
    rewrite (Prim2SF_ofInteger b) by lia. reflexivity.
  - destruct B as [| b | b]; [| | lia].
    + rewrite Z.mul_0_r. rewrite (Prim2SF_ofInteger a) by lia. reflexivity.
    + change (Zpos a * Zpos b) with (Zpos (a * b)) in *.
      rewrite (Prim2SF_ofInteger a La), (Prim2SF_ofInteger b Lb),
        (Prim2SF_ofInteger (a * b) Hlt).
      destruct (int_canonical a La) as (_ & Ea & Ma).
      destruct (int_canonical b Lb) as (_ & Eb & Mb).
      destruct (int_canonical (a * b) Hlt) as (Bc & Ec & Mc).
      pose proof (digits2_le_53 a La). pose proof (digits2_le_53 b Lb).
      pose proof (digits2_le_53 (a * b) Hlt).
      assert (Hda : Zpos (digits2_pos a) <= Zpos (digits2_pos (a * b)))
        by (apply digits2_mono; nia).
      unfold SF64mul, SFmul. cbn [xorb].
      apply round_aux_exact; [exact Bc | lia |].
      rewrite Pos2Z.inj_mul, Ma, Mb, Mc, Pos2Z.inj_mul.
      assert (E1 : 2 ^ (- intExponent a) * 2 ^ (- intExponent b)
                   = 2 ^ (- intExponent a + - intExponent b))
        by (rewrite Z.pow_add_r by lia; reflexivity).
      assert (E2 : 2 ^ (- intExponent (a * b))
                   * 2 ^ (intExponent (a * b) - (intExponent a + intExponent b))
                   = 2 ^ (- intExponent a + - intExponent b))
        by (rewrite <- Z.pow_add_r by lia; f_equal; lia).
      transitivity (Zpos a * Zpos b * 2 ^ (- intExponent a + - intExponent b));
        [rewrite <- E1 | rewrite <- E2]; ring.
Qed.

Lemma add_int (A B : Z) :
  0 <= A -> 0 <= B -> A + B < 2 ^ 53 ->
  (ofInteger A + ofInteger B)%float = ofInteger (A + B).
Proof.
  intros HA HB Hlt. apply Prim2SF_inj. rewrite add_spec.
  destruct A as [| a | a]; [| | lia].
  - destruct B as [| b | b]; [reflexivity | | lia].
    rewrite Z.add_0_l, (Prim2SF_ofInteger b) by lia. reflexivity.
  - destruct B as [| b | b]; [| | lia].
    + rewrite Z.add_0_r, (Prim2SF_ofInteger a) by lia. reflexivity.
    + assert (La : Zpos a < 2 ^ 53) by lia. assert (Lb : Zpos b < 2 ^ 53) by lia.
      change (Zpos a + Zpos b) with (Zpos (a + b)) in *.
      rewrite (Prim2SF_ofInteger a La), (Prim2SF_ofInteger b Lb),
        (Prim2SF_ofInteger (a + b) Hlt).
      destruct (int_canonical a La) as (_ & Ea & Ma).
      destruct (int_canonical b Lb) as (_ & Eb & Mb).
      destruct (int_canonical (a + b) Hlt) as (Bc & Ec & Mc).
      pose proof (digits2_le_53 a La). pose proof (digits2_le_53 b Lb).
      pose proof (digits2_le_53 (a + b) Hlt).
      unfold SF64add, SFadd. cbn [cond_Zopp].
      set (ez := Z.min (intExponent a) (intExponent b)).
      assert (Hza : ez <= intExponent a) by (unfold ez; lia).
      assert (Hzb : ez <= intExponent b) by (unfold ez; lia).
      rewrite !shl_align_value by assumption.
      assert (Ka : Zpos (intMantissa a) * 2 ^ (intExponent a - ez) = Zpos a * 2 ^ (- ez)).
      { rewrite Ma, <- Z.mul_assoc, <- Z.pow_add_r by lia. do 2 f_equal. lia. }
      assert (Kb : Zpos (intMantissa b) * 2 ^ (intExponent b - ez) = Zpos b * 2 ^ (- ez)).
      { rewrite Mb, <- Z.mul_assoc, <- Z.pow_add_r by lia. do 2 f_equal. lia. }
      rewrite Ka, Kb, <- Z.mul_add_distr_r.
      assert (P : 0 < 2 ^ (- ez)) by (apply Z.pow_pos_nonneg; lia).
      destruct (Zpos a + Zpos b) as [| c | c] eqn:Ec'; try lia.
      injection Ec' as <-.
      destruct (Zpos (a + b) * 2 ^ (- ez)) as [| M | M] eqn:EM; try lia.
      cbn [binary_normalize].
      set (el := Z.min ez (intExponent (a + b))).
      apply (binary_round_exact false M (intMantissa (a + b)) ez
               (intExponent (a + b)) el Bc); try (unfold el; lia).
      rewrite <- EM, Mc, <- !Z.mul_assoc, <- !Z.pow_add_r by (unfold el; lia).
      do 2 f_equal. lia.
Qed.

(** Integers below 2^53 are truthy unless they are zero. *)
Lemma orElse_int (n : Z) : 0 <= n < 2 ^ 53 -> orElse (ofInteger n) 0 = ofInteger n.
Proof.
  intros [H0 H]. unfold orElse. destruct n as [| p | p]; [reflexivity | | lia].
  assert (N : is_nan (ofInteger (Zpos p)) = false).
  { apply is_nan_false_spec. rewrite (Prim2SF_ofInteger p H). discriminate. }
  assert (Z0 : is_zero (ofInteger (Zpos p)) = false).
  { unfold is_zero. rewrite eqb_spec, (Prim2SF_ofInteger p H). reflexivity. }
  rewrite N, Z0. reflexivity.
Qed.

Local Open Scope string_scope.

(** What the scanners see in a decimal digit. *)
Lemma digit_unit (c : ascii) :
  isDecimalDigit c = true ->
  digitValue c = Some (N_of_ascii c - 48)%N /\ (N_of_ascii c - 48 <? 10)%N = true /\
  isWhiteSpace c = false /\ Ascii.eqb "x" c = false /\ Ascii.eqb "X" c = false /\
  Ascii.eqb "I" c = false /\ c <> "-"%char /\ c <> "+"%char /\ c <> "."%char /\
  Ascii.eqb c "e" = false /\ Ascii.eqb c "E" = false.
Proof.
  destruct c as [[] [] [] [] [] [] [] []]; intros H; try discriminate H;
    repeat split; try reflexivity; discriminate.
Qed.

Lemma readDigits_decimal (s : string) :
  allDecimal s = true ->
  forall acc count,
    readDigits 10 s acc count = (decimalFrom acc s, (count + String.length s)%nat, "").
Proof.
  induction s as [| c r IH]; cbn [allDecimal readDigits decimalFrom String.length];
    intros H acc count.
  - rewrite Nat.add_0_r. reflexivity.
  - apply andb_true_iff in H. destruct H as [Hc Hr].
    destruct (digit_unit c Hc) as (-> & -> & _).
    rewrite (IH Hr). f_equal. f_equal. lia.
Qed.

Lemma readSign_digit (c : ascii) (r : string) :
  isDecimalDigit c = true -> readSign (String c r) = (false, String c r).
Proof.
  intros H. destruct (digit_unit c H) as (_ & _ & _ & _ & _ & _ & Hm & Hp & _).
  unfold readSign.
  destruct c as [[] [] [] [] [] [] [] []]; try reflexivity; congruence.
Qed.

Lemma parseInt_whole (s : string) :
  wholeNumber s = true -> parseInt s 0 = ofInteger (Z.of_N (decimalValue s)).
Proof.
  destruct s as [| c r]; [discriminate |]. cbn [wholeNumber]. intros H.
  pose proof H as H'. cbn [allDecimal] in H'. apply andb_true_iff in H'.
  destruct H' as [Hc Hr].
  destruct (digit_unit c Hc) as (_ & _ & Hw & Hx & HX & _).
  unfold parseInt. cbn [trimStart]. rewrite Hw, (readSign_digit c r Hc).
  cbn [N.eqb negb andb orb].
  assert (P : startsWith (String c r) "0x" || startsWith (String c r) "0X" = false).
  { cbn [startsWith]. destruct r as [| c' r']; [rewrite !andb_false_r; reflexivity |].
    cbn [allDecimal] in Hr. apply andb_true_iff in Hr. destruct Hr as [Hc' _].
    destruct (digit_unit c' Hc') as (_ & _ & _ & -> & -> & _).
    cbn [andb]. rewrite !andb_false_r. reflexivity. }
  rewrite P. rewrite (readDigits_decimal _ H). cbn [Nat.add String.length Nat.eqb withSign].
  reflexivity.
Qed.

Lemma parseFloat_whole (s : string) :
  wholeNumber s = true -> parseFloat s = ofInteger (Z.of_N (decimalValue s)).
Proof.
  destruct s as [| c r]; [discriminate |]. cbn [wholeNumber]. intros H.
  pose proof H as H'. cbn [allDecimal] in H'. apply andb_true_iff in H'.
  destruct H' as [Hc Hr].
  destruct (digit_unit c Hc) as (_ & _ & Hw & _ & _ & HI & _).
  unfold parseFloat. cbn [trimStart]. rewrite Hw, (readSign_digit c r Hc).
  assert (P : startsWith (String c r) "Infinity" = false)
    by (cbn [startsWith]; rewrite HI; reflexivity).
  rewrite P. rewrite (readDigits_decimal _ H).
  cbn [Nat.add String.length Nat.eqb withSign readExponent].
  unfold ofInteger, decimalValue. f_equal.
  destruct (decimalFrom 0 (String c r)) as [| p]; [reflexivity |].
  unfold ofDecimal. change (0 - Z.of_nat 0)%Z with 0%Z.
  change (310 <? 0)%Z with false. change (0 <=? 0)%Z with true. cbv iota.
  assert (Q : (0 + Z.of_nat (S (String.length r + 0)) <? -330)%Z = false)
    by (apply Z.ltb_ge; lia).
  rewrite Q. cbn [Z.of_N]. rewrite Z.pow_0_r, Z.mul_1_r. reflexivity.
Qed.

Lemma decimal_no_colon (s : string) : allDecimal s = true -> holds ":" s = false.
Proof.
  induction s as [| c r IH]; cbn [allDecimal holds]; intros H; [reflexivity |].
  apply andb_true_iff in H. destruct H as [Hc Hr]. rewrite (IH Hr), orb_false_r.
  destruct c as [[] [] [] [] [] [] [] []]; try discriminate Hc; reflexivity.
Qed.

Lemma split_whole (c : ascii) (s : string) : holds c s = false -> split c s = [s].
Proof.
  induction s as [| a r IH]; cbn [holds split]; intros H; [reflexivity |].
  apply orb_false_iff in H. destruct H as [Ha Hr]. rewrite Ha, (IH Hr). reflexivity.
Qed.

Lemma whole_decimal (s : string) : wholeNumber s = true -> allDecimal s = true.
Proof. destruct s; [discriminate | exact (fun H => H)]. Qed.

Lemma split_timestamp (h m s : string) :
  wholeNumber h = true -> wholeNumber m = true -> wholeNumber s = true ->
  split ":" (h ++ ":" ++ m ++ ":" ++ s) = [h; m; s].
Proof.
  intros Hh Hm Hs.
  change (h ++ ":" ++ m ++ ":" ++ s) with (h ++ String ":" (m ++ String ":" s)).
  rewrite split_field by (apply decimal_no_colon, whole_decimal, Hh).
  rewrite split_field by (apply decimal_no_colon, whole_decimal, Hm).
  rewrite split_whole by (apply decimal_no_colon, whole_decimal, Hs).
  reflexivity.
Qed.

End ExactFacts.


(** ** The further properties *)
Module Extras.
Import JS ASSParser SubtitleRenderer Spec.
Import FloatFacts SortFacts StyleFacts StringFacts MarkupFacts ColourFacts.
Import OrderFacts AppFacts QueryFacts ParserFacts NormalFacts EndsFacts.
Import ExactFacts.

(** X1. When [seekVideo] calls the player, the video has a duration [d >= 0] and
    the position aimed at is a Number, the position it passes is that target
    clamped to [0, d]: it lies in [0, d]; it is the target when the target is
    in [0, d], 0 when the target is below 0 and [d] when it is above [d]. *)
Theorem seekVideo_clamps (seconds : float) (st : App.t) (d p : float) :
  App.durationMillis (App.status st) = Some d ->
  (0 <=? d)%float = true ->
  is_nan (seekTarget seconds st) = false ->
  App.seekVideo seconds st = Some p ->
  ((0 <=? p)%float = true /\ (p <=? d)%float = true) /\
  ((0 <=? seekTarget seconds st)%float = true ->
   (seekTarget seconds st <=? d)%float = true ->
   (p =? seekTarget seconds st)%float = true) /\
  ((seekTarget seconds st <? 0)%float = true -> p = 0%float) /\
  ((d <? seekTarget seconds st)%float = true -> (p =? d)%float = true).
Proof.
  intros Hd H0 Nt Hp. unfold App.seekVideo in Hp. rewrite Hd in Hp.
  destruct (App.isLoaded (App.status st) && truthyNumber d); [| discriminate].
  injection Hp as <-. fold (seekTarget seconds st).
  split; [apply clamp_bounds; assumption |].
  split; [intros; apply clamp_inside; assumption |].
  split; [intros; apply clamp_below; assumption |].
  intros; apply clamp_above; assumption.
Qed.

(** The theorem on a seek of 10 seconds back from the position 4000 of a video
    of 60000 milliseconds: the player is sent to 0. *)
Lemma seekVideo_clamps_witness :
  App.seekVideo (-10) (App.mk (loadedAt 4000) [] None) = Some 0%float /\
  (0 <=? 0)%float = true /\ (0 <=? 60000)%float = true.
Proof.
  assert (Hp : App.seekVideo (-10) (App.mk (loadedAt 4000) [] None) = Some 0%float)
    by (vm_compute; reflexivity).
  destruct (seekVideo_clamps (-10) (App.mk (loadedAt 4000) [] None) 60000 0
              eq_refl eq_refl eq_refl Hp) as ([H0 Hd] & _).
  split; [exact Hp |]. split; [exact H0 | exact Hd].
Defined.

(** X2. After any series of status reports on a state with a parser, the
    subtitles on display are the active events of that parser at the last
    position that was reported by a loaded status and is truthy; they are the
    subtitles of before if there is no such report.  A report at the position
    0, or without position, changes nothing on display, and the parser is
    never changed by a report. *)
Theorem reports_show_last_position
    (reports : list App.PlaybackStatus) (st : App.t) (parser : ASSParser.t) :
  App.assParser st = Some parser ->
  App.assParser (afterReports reports st) = Some parser /\
  App.subtitles (afterReports reports st) =
    match lastPosition reports with
    | Some t => getActiveSubtitles parser t
    | None => App.subtitles st
    end /\
  (forall report : App.PlaybackStatus,
      truthy (App.positionMillis report) = false ->
      App.subtitles (App.handlePlaybackStatusUpdate report st) = App.subtitles st).
Proof.
  intros Hp. split; [rewrite afterReports_parser; exact Hp |].
  split; [exact (afterReports_subtitles reports st parser Hp) |].
  intros report Hf. rewrite (handle_subtitles report st parser Hp).
  cbn [lastPosition]. rewrite Hf, andb_false_r. reflexivity.
Qed.

(** The theorem on the track of two events: after reports at 1500, at 0 and at
    500 the one event active at 500 is shown; after reports at 1500 and at 0
    the event active at 1500 still is. *)
Lemma reports_show_last_position_witness :
  map Event.text
    (App.subtitles
       (afterReports [loadedAt 1500; loadedAt 0; loadedAt 500]
          (App.mk (loadedAt 0) [] (Some (parseASS adjacentTrack)))))
    = ["first"] /\
  map Event.text
    (App.subtitles
       (afterReports [loadedAt 1500; loadedAt 0]
          (App.mk (loadedAt 0) [] (Some (parseASS adjacentTrack)))))
    = ["second"].
Proof.
  split.
  - rewrite (proj1 (proj2 (reports_show_last_position
               [loadedAt 1500; loadedAt 0; loadedAt 500]
               (App.mk (loadedAt 0) [] (Some (parseASS adjacentTrack)))
               (parseASS adjacentTrack) eq_refl))).
    vm_compute. reflexivity.
  - rewrite (proj1 (proj2 (reports_show_last_position
               [loadedAt 1500; loadedAt 0]
               (App.mk (loadedAt 0) [] (Some (parseASS adjacentTrack)))
               (parseASS adjacentTrack) eq_refl))).
    vm_compute. reflexivity.
Defined.

(** X3. [loadSubtitles] installs a parser exactly when the fetch gave a response
    that is [ok] and whose text has a code unit that is not white space; the
    parser is then the parse of that text and no alert is shown.  In every
    other case the state is left as it was and an alert is shown; for a text
    of white space only its message is the one of the empty file. *)
Theorem loadSubtitles_outcome (r : App.Fetched) (st : App.t) :
  (forall (httpStatus : float) (text : string),
      r = App.Responded true httpStatus text ->
      allWhiteSpace text = false ->
      App.loadSubtitles r st =
      (App.mk (App.status st) (App.subtitles st) (Some (parseASS text)), None)) /\
  (forall (httpStatus : float) (text : string),
      r = App.Responded true httpStatus text ->
      allWhiteSpace text = true ->
      App.loadSubtitles r st =
      (st, Some "Failed to load subtitles: Empty subtitle file")) /\
  (snd (App.loadSubtitles r st) = None <->
   exists (httpStatus : float) (text : string),
     r = App.Responded true httpStatus text /\ allWhiteSpace text = false) /\
  (snd (App.loadSubtitles r st) <> None -> fst (App.loadSubtitles r st) = st).
Proof.
  assert (Hempty : forall text,
             String.eqb text "" || (String.length (trim text) =? 0)
             = allWhiteSpace text).
  { intros text. destruct (allWhiteSpace text) eqn:W.
    - apply trim_empty in W. rewrite W. apply orb_true_r.
    - apply orb_false_iff. split.
      + destruct text; [discriminate | reflexivity].
      + destruct (trim text) eqn:T; [| reflexivity].
        apply trim_empty in T. congruence. }
  split; [| split; [| split]].
  - intros code text -> W. unfold App.loadSubtitles, App.fetchedContent.
    cbn [negb]. rewrite Hempty, W. reflexivity.
  - intros code text -> W. unfold App.loadSubtitles, App.fetchedContent.
    cbn [negb]. rewrite Hempty, W. reflexivity.
  - unfold App.loadSubtitles, App.fetchedContent.
    destruct r as [message | ok code text].
    + cbn [snd]. split; [discriminate | intros (c & t & E & _); discriminate].
    + destruct ok; cbn [negb].
      * rewrite Hempty. destruct (allWhiteSpace text) eqn:W; cbn [snd].
        -- split; [discriminate |].
           intros (c & t & E & Wt). injection E as _ <-. congruence.
        -- split; [intros _; exists code, text; split; [reflexivity | exact W]
                  | reflexivity].
      * cbn [snd]. split; [discriminate | intros (c & t & E & _); discriminate].
  - unfold App.loadSubtitles. destruct (App.fetchedContent r); cbn [fst snd];
      [intros H; contradiction H |]; reflexivity.
Qed.

(** The theorem on a response whose text is a line break and a tab: the alert
    of the empty file; and on a response that holds the track of two events. *)
Lemma loadSubtitles_outcome_witness :
  App.loadSubtitles (App.Responded true 200 (nl ++ String (ascii_of_nat 9) ""))
    App.initial
    = (App.initial, Some "Failed to load subtitles: Empty subtitle file") /\
  App.loadSubtitles (App.Responded true 200 adjacentTrack) App.initial
    = (App.mk (App.status App.initial) [] (Some (parseASS adjacentTrack)), None).
Proof.
  split.
  - exact (proj1 (proj2 (loadSubtitles_outcome
             (App.Responded true 200 (nl ++ String (ascii_of_nat 9) ""))
             App.initial))
             200%float (nl ++ String (ascii_of_nat 9) "") eq_refl eq_refl).
  - exact (proj1 (loadSubtitles_outcome
             (App.Responded true 200 adjacentTrack) App.initial)
             200%float adjacentTrack eq_refl eq_refl).
Defined.

(** X4. In a run of the component, from its first state, in which the
    subtitles are loaded once between any status reports, the subtitles on
    display are always events of the loaded track.  Nothing is on display
    before the load, and nothing ever is after a load that failed. *)
Theorem display_from_track
    (before after : list App.PlaybackStatus) (r : App.Fetched) :
  let loaded := App.loadSubtitles r (afterReports before App.initial) in
  App.subtitles (afterReports before App.initial) = [] /\
  showsTrackEvents (afterReports after (fst loaded)) /\
  (snd loaded <> None -> App.subtitles (afterReports after (fst loaded)) = []).
Proof.
  cbv zeta.
  assert (P1 : App.assParser (afterReports before App.initial) = None)
    by (rewrite afterReports_parser; reflexivity).
  assert (S1 : App.subtitles (afterReports before App.initial) = [])
    by (rewrite (afterReports_no_parser before App.initial eq_refl); reflexivity).
  split; [exact S1 |].
  unfold App.loadSubtitles.
  destruct (App.fetchedContent r) as [assContent | message]; cbn [fst snd].
  - split; [| intros H; contradiction H; reflexivity].
    intros event Hin. exists (parseASS assContent).
    split; [rewrite afterReports_parser; reflexivity |].
    rewrite (afterReports_subtitles after
               (App.mk (App.status (afterReports before App.initial))
                       (App.subtitles (afterReports before App.initial))
                       (Some (parseASS assContent)))
               (parseASS assContent) eq_refl) in Hin.
    cbn [App.subtitles] in Hin. rewrite S1 in Hin.
    destruct (lastPosition after) as [t |]; [| destruct Hin].
    apply active_In in Hin. exact (proj1 Hin).
  - assert (S2 : App.subtitles (afterReports after (afterReports before App.initial))
                 = []) by (rewrite (afterReports_no_parser after _ P1); exact S1).
    split; [| intros _; exact S2].
    intros event Hin. rewrite S2 in Hin. destruct Hin.
Qed.

(** X5. An event of a track is returned by [getActiveSubtitles] at some time
    exactly when its start is at most its end: an event whose interval is
    inverted, or whose start or end is [NaN], is never active; every other
    event is active at its start and at its end. *)
Theorem active_iff_interval (this : ASSParser.t) (event : Event.t) :
  In event (events this) ->
  ((exists t : float, In event (getActiveSubtitles this t)) <->
   (Event.start event <=? Event.end_ event)%float = true) /\
  ((Event.start event <=? Event.end_ event)%float = true ->
   In event (getActiveSubtitles this (Event.start event)) /\
   In event (getActiveSubtitles this (Event.end_ event))).
Proof.
  intros Hin.
  assert (Ends : (Event.start event <=? Event.end_ event)%float = true ->
                 In event (getActiveSubtitles this (Event.start event)) /\
                 In event (getActiveSubtitles this (Event.end_ event))).
  { intros H. destruct (leb_numbers _ _ H) as [Ns Ne].
    split; apply active_In; (split; [exact Hin |]); split;
      try exact H; apply leb_refl; assumption. }
  split; [| exact Ends]. split.
  - intros [t Ht]. apply active_In in Ht. destruct Ht as (_ & Hs & He).
    exact (leb_trans _ _ _ Hs He).
  - intros H. exists (Event.start event). exact (proj1 (Ends H)).
Qed.

(** The theorem on the first event of the track of two events. *)
Lemma active_iff_interval_witness :
  exists event : Event.t,
    nth_error (events (parseASS adjacentTrack)) 0 = Some event /\
    In event (getActiveSubtitles (parseASS adjacentTrack) (Event.start event)) /\
    In event (getActiveSubtitles (parseASS adjacentTrack) (Event.end_ event)).
Proof.
  destruct (events (parseASS adjacentTrack)) as [| event rest] eqn:E;
    [vm_compute in E; discriminate |].
  exists event. split; [reflexivity |].
  assert (Hin : In event (events (parseASS adjacentTrack)))
    by (rewrite E; left; reflexivity).
  apply (proj2 (active_iff_interval (parseASS adjacentTrack) event Hin)).
  vm_compute in E. injection E as <- _. vm_compute. reflexivity.
Defined.

(** X6. On a parsed track whose start times are all numbers, the events that
    [getActiveSubtitles] returns are in ascending order of start time, at
    every query time. *)
Theorem active_sorted (assContent : string) (t : float) :
  Forall numericStart (events (parseASS assContent)) ->
  StronglySorted startLe (getActiveSubtitles (parseASS assContent) t).
Proof.
  intros Hn. unfold getActiveSubtitles.
  apply StronglySorted_filter, events_strongly_sorted, Hn.
Qed.

(** The theorem on the track of two events, at the time 1000 when both are
    active. *)
Lemma active_sorted_witness :
  Forall numericStart (events (parseASS adjacentTrack)) /\
  StronglySorted startLe (getActiveSubtitles (parseASS adjacentTrack) 1000).
Proof.
  assert (H : Forall numericStart (events (parseASS adjacentTrack))).
  { vm_compute. repeat constructor. }
  split; [exact H | exact (active_sorted adjacentTrack 1000 H)].
Defined.

(** X7. Every event of a parsed track is the event of a line of the content
    that, once trimmed, starts with [Dialogue:] and has at least 10 fields: the
    parser makes up no event. *)
Theorem events_from_dialogue_lines (assContent : string) (event : Event.t) :
  In event (events (parseASS assContent)) ->
  exists line : string,
    In line (linesOf assContent) /\
    startsWith line "Dialogue:" = true /\
    10 <= List.length (dialogueParts line) /\
    event = eventOfParts (dialogueParts line).
Proof.
  intros Hin.
  destruct (proj1 (parseASS_fromContent assContent) event Hin)
    as (line & Hl & Hd & E).
  exists line. split; [exact Hl |]. split; [exact Hd |].
  unfold eventOfLine in E.
  destruct (10 <=? List.length (dialogueParts line)) eqn:L; [| discriminate].
  injection E as <-. split; [apply Nat.leb_le, L | reflexivity].
Qed.

(** The theorem on the first event of the track of two events. *)
Lemma events_from_dialogue_lines_witness :
  exists (event : Event.t) (line : string),
    nth_error (events (parseASS adjacentTrack)) 0 = Some event /\
    In line (linesOf adjacentTrack) /\
    startsWith line "Dialogue:" = true /\
    10 <= List.length (dialogueParts line) /\
    event = eventOfParts (dialogueParts line).
Proof.
  destruct (events (parseASS adjacentTrack)) as [| event rest] eqn:E;
    [vm_compute in E; discriminate |].
  assert (Hin : In event (events (parseASS adjacentTrack)))
    by (rewrite E; left; reflexivity).
  destruct (events_from_dialogue_lines adjacentTrack event Hin) as (line & H).
  exists event, line. split; [reflexivity | exact H].
Defined.

(** X8. In a parsed track every style is stored under its own name, and is the
    style of a line of the content that, once trimmed, starts with [Style:]. *)
Theorem styles_keyed_by_name (assContent k : string) (style : Style.t) :
  styles (parseASS assContent) !! k = Some style ->
  Style.name style = k /\
  exists line : string,
    In line (linesOf assContent) /\
    startsWith line "Style:" = true /\
    styleOfLine line = Some style.
Proof. exact (proj2 (parseASS_fromContent assContent) k style). Qed.

(** The theorem on the style that the track with two style lines stores. *)
Lemma styles_keyed_by_name_witness :
  styles (parseASS restyledTrack) !! "Default" = Some (styleAligned "9") /\
  Style.name (styleAligned "9") = "Default".
Proof.
  assert (H : styles (parseASS restyledTrack) !! "Default"
              = Some (styleAligned "9")) by (vm_compute; reflexivity).
  split; [exact H |].
  exact (proj1 (styles_keyed_by_name restyledTrack "Default" _ H)).
Defined.

(** X9. A content with no header line that reads [events], in any case of
    letters, gives a track without events, whatever dialogue lines it holds;
    a content with no header line that reads [v4+ styles] gives a track
    without styles. *)
Theorem sections_gate (assContent : string) :
  (Forall (fun line => sectionOf line <> Some "events") (linesOf assContent) ->
   events (parseASS assContent) = []) /\
  (Forall (fun line => sectionOf line <> Some "v4+ styles") (linesOf assContent) ->
   styles (parseASS assContent) = ∅).
Proof.
  assert (M : forall P : string -> Prop,
             Forall P (linesOf assContent) ->
             Forall (fun raw => P (trim raw)) (split LF assContent)).
  { intros P H. apply List.Forall_forall. intros raw Hin.
    rewrite List.Forall_forall in H. apply H, in_map, Hin. }
  split; intros H; apply M in H; unfold parseASS.
  - pose proof (fold_no_events (split LF assContent) None new H
                  ltac:(discriminate) eq_refl) as E.
    destruct (fold_left parseLine (split LF assContent) (None, new)) as [sec this].
    cbn [snd] in E. cbn [events]. rewrite E. reflexivity.
  - pose proof (fold_no_styles (split LF assContent) None new H
                  ltac:(discriminate) eq_refl) as E.
    destruct (fold_left parseLine (split LF assContent) (None, new)) as [sec this].
    cbn [snd] in E. exact E.
Qed.

(** The theorem on a dialogue line under a header that is not the one of the
    events, and on the track of two events, which has no styles. *)
Lemma sections_gate_witness :
  events (parseASS ("[Script Info]" ++ nl ++
                    dialogueLine "0:00:00.00" "0:00:01.00" "lost")) = [] /\
  styles (parseASS adjacentTrack) = ∅.
Proof.
  split.
  - apply (proj1 (sections_gate _)). vm_compute.
    repeat constructor; discriminate.
  - apply (proj2 (sections_gate _)). vm_compute.
    repeat constructor; discriminate.
Defined.

(** X10. A line that, once trimmed, starts with [Dialogue:] and has at least 10
    fields gives its event to the parsed track whenever a header [events]
    comes before it with no other header in between, whatever else the
    content holds. *)
Theorem dialogue_line_yields_event
    (assContent h l : string) (pre mid post : list string) (event : Event.t) :
  split LF assContent = (pre ++ h :: mid ++ l :: post)%list ->
  sectionOf (trim h) = Some "events" ->
  Forall (fun raw => sectionOf (trim raw) = None) mid ->
  startsWith (trim l) "Dialogue:" = true ->
  eventOfLine (trim l) = Some event ->
  In event (events (parseASS assContent)).
Proof.
  intros Hsplit Hh Hmid Hd He. rewrite parseASS_events.
  eapply Permutation_in; [apply Permutation_sym, sort_perm |].
  rewrite Hsplit.
  replace (pre ++ h :: mid ++ l :: post)%list
    with ((pre ++ h :: mid) ++ l :: post)%list
    by (rewrite <- app_assoc; reflexivity).
  rewrite fold_left_app. cbn [fold_left].
  apply fold_keeps_event.
  pose proof (fold_under_header pre mid h "events" (None, new) Hh Hmid) as Hsec.
  destruct (fold_left parseLine (pre ++ h :: mid) (None, new)) as [sec this].
  cbn [fst] in Hsec. subst sec.
  rewrite parseLine_cases, (dialogue_not_header _ Hd), Hd.
  cbn [sectionIs strictEq String.eqb Ascii.eqb Bool.eqb andb snd].
  rewrite parseDialogue_events, He. apply in_or_app. right. left. reflexivity.
Qed.

(** The theorem on the second dialogue line of the track of two events. *)
Lemma dialogue_line_yields_event_witness :
  In (eventOfParts
        (dialogueParts (dialogueLine "0:00:00.00" "0:00:01.00" "first")))
     (events (parseASS adjacentTrack)).
Proof.
  apply (dialogue_line_yields_event adjacentTrack "[Events]"
           (dialogueLine "0:00:00.00" "0:00:01.00" "first")
           [] [dialogueLine "0:00:01.00" "0:00:02.00" "second"] []).
  - vm_compute. reflexivity.
  - vm_compute. reflexivity.
  - repeat constructor.
  - vm_compute. reflexivity.
  - vm_compute. reflexivity.
Defined.

(** X11. The last style line of a name wins: the style of a line that, once
    trimmed, starts with [Style:] and has at least 16 fields is the one the
    parsed track stores under its name whenever a header [v4+ styles] comes
    before the line with no other header in between and no style line after
    it gives a style of the same name. *)
Theorem last_style_line_wins
    (assContent h l : string) (pre mid post : list string) (style : Style.t) :
  split LF assContent = (pre ++ h :: mid ++ l :: post)%list ->
  sectionOf (trim h) = Some "v4+ styles" ->
  Forall (fun raw => sectionOf (trim raw) = None) mid ->
  startsWith (trim l) "Style:" = true ->
  styleOfLine (trim l) = Some style ->
  Forall (fun raw => forall other : Style.t,
            startsWith (trim raw) "Style:" = true ->
            styleOfLine (trim raw) = Some other ->
            Style.name other <> Style.name style) post ->
  styles (parseASS assContent) !! Style.name style = Some style.
Proof.
  intros Hsplit Hh Hmid Hs He Hpost.
  assert (E : styles (parseASS assContent) =
              styles (snd (fold_left parseLine (split LF assContent) (None, new)))).
  { unfold parseASS.
    destruct (fold_left parseLine (split LF assContent) (None, new)); reflexivity. }
  rewrite E, Hsplit.
  replace (pre ++ h :: mid ++ l :: post)%list
    with ((pre ++ h :: mid) ++ l :: post)%list
    by (rewrite <- app_assoc; reflexivity).
  rewrite fold_left_app. cbn [fold_left].
  apply fold_keeps_style; [exact Hpost |].
  pose proof (fold_under_header pre mid h "v4+ styles" (None, new) Hh Hmid) as Hsec.
  destruct (fold_left parseLine (pre ++ h :: mid) (None, new)) as [sec this].
  cbn [fst] in Hsec. subst sec.
  rewrite parseLine_cases, (style_not_header _ Hs), Hs.
  cbn [sectionIs strictEq andb snd]. rewrite String.eqb_refl. cbn [andb snd].
  unfold parseStyle. rewrite He. cbn [styles]. apply lookup_insert_eq.
Qed.

(** The theorem on the second style line of the track with two style lines of
    one name. *)
Lemma last_style_line_wins_witness :
  styles (parseASS restyledTrack) !! Style.name (styleAligned "9")
    = Some (styleAligned "9").
Proof.
  apply (last_style_line_wins restyledTrack "[V4+ Styles]" (styleLine "9")
           [] [styleLine "7"]
           ["[Events]"; dialogueLine "0:00:00.00" "0:00:01.00" "first"]).
  - vm_compute. reflexivity.
  - vm_compute. reflexivity.
  - repeat constructor.
  - vm_compute. reflexivity.
  - vm_compute. reflexivity.
  - repeat constructor; intros other H; vm_compute in H; discriminate.
Defined.

(** X12. [cleanText] is idempotent, and the texts it leaves as they are are
    exactly those that have no tag (no opening brace with a closing brace after
    it) and neither of the escapes [\N] and [\n]. *)
Theorem cleanText_fixed_points (text : string) :
  cleanText (cleanText text) = cleanText text /\
  (cleanText text = text <->
   tagFree text = true /\
   occurs "\" "N" text = false /\ occurs "\" "n" text = false).
Proof.
  assert (Fix : forall t : string,
             tagFree t = true -> occurs "\" "N" t = false ->
             occurs "\" "n" t = false -> cleanText t = t).
  { intros t Ht HN Hn. unfold cleanText.
    rewrite (removeTags_tagFree_id t Ht).
    rewrite (replaceAll_id_bounded "\" "N" newline _ t (le_n _) HN).
    exact (replaceAll_id_bounded "\" "n" newline _ t (le_n _) Hn). }
  assert (Out : tagFree (cleanText text) = true /\
                occurs "\" "N" (cleanText text) = false /\
                occurs "\" "n" (cleanText text) = false).
  { unfold cleanText. split; [| split].
    - apply (tagFree_replaceAll_bounded "\" "n" _ _ eq_refl eq_refl (le_n _)).
      apply (tagFree_replaceAll_bounded "\" "N" _ _ eq_refl eq_refl (le_n _)).
      apply removeTags_tagFree.
    - apply (replaceAll_keeps_bounded "\" "n" "\" "N" _ _ eq_refl eq_refl (le_n _)).
      apply (replaceAll_removes_bounded "\" "N" _ _ eq_refl eq_refl (le_n _)).
    - apply (replaceAll_removes_bounded "\" "n" _ _ eq_refl eq_refl (le_n _)). }
  split.
  - destruct Out as (Ht & HN & Hn). exact (Fix _ Ht HN Hn).
  - split.
    + intros E. rewrite E in Out. exact Out.
    + intros (Ht & HN & Hn). exact (Fix _ Ht HN Hn).
Qed.

(** X13. [cleanText] never makes a text longer. *)
Theorem cleanText_length (text : string) :
  String.length (cleanText text) <= String.length text.
Proof.
  unfold cleanText.
  pose proof (removeTags_length text false) as H1.
  pose proof (replaceAll_length_bounded "\" "N" _ (removeTags false text) (le_n _))
    as H2.
  pose proof (replaceAll_length_bounded "\" "n" _
                (replaceAll "\" "N" newline (removeTags false text)) (le_n _))
    as H3.
  lia.
Qed.

(** X14. In a colour field that starts with [&H] and six hexadecimal digits and
    ends with [&], everything between the sixth digit and the final [&] is
    ignored: the colour is the one of the six digits.  So a field with a
    leading alpha byte, [&HAABBGGRR&], gets blue from AA, green from BB and
    red from GG. *)
Theorem parseColor_ignores_tail
    (b1 b2 g1 g2 r1 r2 : ascii) (vb1 vb2 vg1 vg2 vr1 vr2 : N) (tail : string) :
  digitValue b1 = Some vb1 -> digitValue b2 = Some vb2 ->
  digitValue g1 = Some vg1 -> digitValue g2 = Some vg2 ->
  digitValue r1 = Some vr1 -> digitValue r2 = Some vr2 ->
  forallb (fun v => (v <? 16)%N) [vb1; vb2; vg1; vg2; vr1; vr2] = true ->
  parseColor (bgrFieldWith b1 b2 g1 g2 r1 r2 tail) =
  rgbText (byteOf vr1 vr2) (byteOf vg1 vg2) (byteOf vb1 vb2).
Proof.
  intros B1 B2 G1 G2 R1 R2 Hall. cbn [forallb] in Hall.
  repeat (apply andb_prop in Hall; destruct Hall as [? Hall]).
  unfold parseColor, bgrFieldWith.
  set (digits := String b1 (String b2 (String g1 (String g2
                   (String r1 (String r2 tail)))))).
  change (String "&" (String "H" (String b1 (String b2 (String g1 (String g2
            (String r1 (String r2 (tail ++ "&")))))))))
    with (String "&" (String "H" (digits ++ "&"))).
  replace (endsWith (String "&" (String "H" (digits ++ "&"))) "&") with true
    by (symmetry; exact (endsWith_app (String "&" (String "H" digits)) "&")).
  change (startsWith (String "&" (String "H" (digits ++ "&"))) "&H") with true.
  cbv iota. cbn [andb]. rewrite slice_wrapped. unfold digits.
  cbv zeta. cbn [substr substring]. rewrite substring_none.
  rewrite (parseInt_byte b1 b2 vb1 vb2), (parseInt_byte g1 g2 vg1 vg2),
    (parseInt_byte r1 r2 vr1 vr2) by assumption.
  reflexivity.
Qed.

(** The theorem on opaque red with its alpha byte first, [&H000000FF&]: the
    result is black, the red byte is not read. *)
Lemma parseColor_ignores_tail_witness :
  parseColor "&H000000FF&" = "rgb(0, 0, 0)".
Proof.
  change "&H000000FF&" with (bgrFieldWith "0" "0" "0" "0" "0" "0" "FF").
  rewrite (parseColor_ignores_tail "0" "0" "0" "0" "0" "0" 0 0 0 0 0 0 "FF")
    by reflexivity.
  vm_compute. reflexivity.
Defined.

(** X15. A style whose alignment field is absent or gives no number is centred:
    [getPositionStyle] returns [center] and [center] for the style of every
    style line of fewer than 19 fields. *)
Theorem unaligned_style_centred (parts : list string) :
  is_nan (intField parts 18) = true ->
  getPositionStyle (Some (styleOfParts parts)) =
  Some (mkPositionStyle "center" "center" "100%").
Proof.
  intros Hn. unfold getPositionStyle, positionOf.
  cbn [styleOfParts Style.alignment]. rewrite (orElse_nan _ _ Hn).
  vm_compute. reflexivity.
Qed.

(** The theorem on the style line of 16 fields. *)
Lemma unaligned_style_centred_witness :
  is_nan (intField (styleParts shortStyleLine) 18) = true /\
  getPositionStyle (Some (styleOfParts (styleParts shortStyleLine))) =
  Some (mkPositionStyle "center" "center" "100%").
Proof.
  assert (H : is_nan (intField (styleParts shortStyleLine) 18) = true)
    by (apply intField_absent; vm_compute; lia).
  split; [exact H | exact (unaligned_style_centred _ H)].
Defined.



(** X17. For every timestamp [H:M:S] whose three fields are whole numbers in
    decimal digits, with fewer than [2^53] milliseconds in all, [parseTime]
    returns the Number of exactly [(3600 H + 60 M + S) * 1000]: no step of
    the binary64 arithmetic rounds. *)
Theorem parseTime_whole_seconds (h m s : string) :
  wholeNumber h = true -> wholeNumber m = true -> wholeNumber s = true ->
  (wholeMillis h m s < 2 ^ 53)%N ->
  parseTime (h ++ ":" ++ m ++ ":" ++ s) = ofInteger (Z.of_N (wholeMillis h m s)).
Proof.
  intros Hh Hm Hs Hlt.
  unfold parseTime, intField, floatField, at_.
  rewrite (split_timestamp h m s Hh Hm Hs).
  cbn [List.length Nat.eqb negb nth_error ToString].
  rewrite (parseInt_whole h Hh), (parseInt_whole m Hm), (parseFloat_whole s Hs).
  unfold wholeMillis in *.
  set (H := decimalValue h) in *. set (M := decimalValue m) in *.
  set (S := decimalValue s) in *.
  assert (B : ((Z.of_N H * 3600 + Z.of_N M * 60 + Z.of_N S) * 1000 < 2 ^ 53)%Z).
  { apply N2Z.inj_lt in Hlt. rewrite N2Z.inj_pow in Hlt.
    rewrite N2Z.inj_mul, !N2Z.inj_add, !N2Z.inj_mul in Hlt. cbn [Z.of_N] in Hlt. lia. }
  pose proof (N2Z.is_nonneg H). pose proof (N2Z.is_nonneg M).
  pose proof (N2Z.is_nonneg S).
  rewrite !orElse_int by lia.
  change 3600%float with (ofInteger 3600). change 60%float with (ofInteger 60).
  change 1000%float with (ofInteger 1000).
  rewrite (mul_int (Z.of_N H) 3600) by lia.
  rewrite (mul_int (Z.of_N M) 60) by lia.
  rewrite (add_int (Z.of_N H * 3600) (Z.of_N M * 60)) by lia.
  rewrite (add_int (Z.of_N H * 3600 + Z.of_N M * 60) (Z.of_N S)) by lia.
  rewrite (mul_int _ 1000) by lia.
  f_equal. rewrite N2Z.inj_mul, !N2Z.inj_add, !N2Z.inj_mul. cbn [Z.of_N]. lia.
Qed.

(** The theorem on one hour, two minutes and three seconds. *)
Lemma parseTime_whole_seconds_witness :
  (wholeMillis "1" "02" "03" < 2 ^ 53)%N /\
  parseTime "1:02:03" = 3723000%float.
Proof.
  split; [reflexivity |].
  exact (parseTime_whole_seconds "1" "02" "03" eq_refl eq_refl eq_refl eq_refl).
Defined.

End Extras.
